(** * Azure Vision / Azure OpenAI integration: a shallow embedding of [main.py]

    The script is sequential glue around two cloud services.  The
    embedding keeps the source's structure:

    - Python values that end up in JSON documents are a small inductive
      type ([pyval]); dict literals are association lists in insertion
      order, which is what [json.dump] writes;
    - [try]/[except], [exit(1)] and the file system are a state and
      exception monad ([M]) over a finite map from paths to files;
    - everything the script cannot decide by itself (the services, the
      clock, the directory listing, I/O faults) is read from a [world]
      record of oracles.

    Strings are byte strings; the source's literals are kept as they are. *)

From Stdlib Require Import ZArith QArith String Ascii List Bool Lia.
From stdpp Require Import base option gmap strings pretty.
Import ListNotations.

Local Open Scope string_scope.
Local Open Scope Z_scope.

(** ** Python values *)

(** A Python [float]: a finite number (kept exact) or one of the three
    non-finite values, which [json.dump] prints as [NaN], [Infinity] and
    [-Infinity]. *)
Inductive pyfloat : Type :=
| Finite (q : Q)
| NaN
| PosInf
| NegInf.

#[warnings="-register-all"] Inductive pyval : Type :=
| PNone
| PBool (b : bool)
| PStr (s : string)
| PInt (z : Z)
| PFloat (f : pyfloat)
| PList (l : list pyval)
| PDict (d : list (string * pyval)).

(** ** Exceptions and results *)

(** The classes of [Exception] the script meets.  All of them derive from
    [Exception]; [SystemExit], which does not, is a separate outcome
    below. *)
Inductive exn_class : Type :=
| FileNotFoundError
| OSError
| JSONDecodeError
| KeyError
| TypeError
| IndexError
| AttributeError
| ServiceError.

Global Instance exn_class_eq_dec : EqDecision exn_class.
Proof. solve_decision. Defined.

(** An exception instance: its class and what [str(e)] gives. *)
Record exn : Type := Exn { exn_cls : exn_class; exn_str : string }.

(** What an external call hands back. *)
Inductive result (A : Type) : Type :=
| Returns (a : A)
| Raises (e : exn).
Arguments Returns {A} a.
Arguments Raises {A} e.

(** ** [os.path] (posixpath) and [str] helpers *)

Module PyStr.

Definition sep : ascii := "/"%char.
Definition extsep : ascii := "."%char.

(** [p.rfind(c)]: index of the last occurrence, [-1] when there is none. *)
Fixpoint rfind_from (c : ascii) (p : string) (i : Z) (last : Z) : Z :=
  match p with
  | EmptyString => last
  | String a p' =>
      rfind_from c p' (i + 1) (if Ascii.eqb a c then i else last)
  end.

Definition rfind (c : ascii) (p : string) : Z := rfind_from c p 0 (-1).

(** [p[:i]] and [p[i:]] for [0 <= i]. *)
Definition slice_to (p : string) (i : Z) : string :=
  substring 0 (Z.to_nat i) p.

Definition slice_from (p : string) (i : Z) : string :=
  substring (Z.to_nat i) (String.length p - Z.to_nat i) p.

(** [p[i:i+1] != extsep] *)
Definition not_dot_at (p : string) (i : Z) : bool :=
  match String.get (Z.to_nat i) p with
  | Some a => negb (Ascii.eqb a extsep)
  | None => true
  end.

(** The [while filenameIndex < dotIndex] loop of [genericpath._splitext]:
    [n] iterations remain, [true] as soon as a character that is not a
    dot is found. *)
Fixpoint skip_leading_dots (p : string) (filenameIndex : Z) (n : nat) : bool :=
  match n with
  | O => false
  | S n' =>
      if not_dot_at p filenameIndex then true
      else skip_leading_dots p (filenameIndex + 1) n'
  end.

(** [os.path.splitext(p)] *)
Definition splitext (p : string) : string * string :=
  let sepIndex := rfind sep p in
  let dotIndex := rfind extsep p in
  if (sepIndex <? dotIndex)
     && skip_leading_dots p (sepIndex + 1) (Z.to_nat (dotIndex - (sepIndex + 1)))
  then (slice_to p dotIndex, slice_from p dotIndex)
  else (p, "").

(** [os.path.basename(p)] *)
Definition basename (p : string) : string :=
  slice_from p (rfind sep p + 1).

(** [os.path.join(a, b)] *)
Definition startswith (c : ascii) (p : string) : bool :=
  match p with
  | String a _ => Ascii.eqb a c
  | EmptyString => false
  end.

Definition endswith (c : ascii) (p : string) : bool :=
  (0 <? Z.of_nat (String.length p))
  && (rfind_from c p 0 (-1) =? Z.of_nat (String.length p) - 1).

Definition join (a b : string) : string :=
  if startswith sep b then b
  else if (Z.of_nat (String.length a) =? 0) || endswith sep a then a ++ b
  else a ++ "/" ++ b.

(** [s.lower()] on the ASCII letters; other bytes are kept.  The
    extensions compared with are ASCII, and no character outside ASCII
    lower-cases to a string of their letters. *)
Definition lower_char (a : ascii) : ascii :=
  let n := nat_of_ascii a in
  if ((65 <=? n) && (n <=? 90))%nat then ascii_of_nat (n + 32) else a.

Fixpoint lower (s : string) : string :=
  match s with
  | EmptyString => EmptyString
  | String a s' => String (lower_char a) (lower s')
  end.

End PyStr.

(** ** Files and the process state *)

(** The keyword arguments of one [open(..., 'w')] / [json.dump] pair. *)
Record dump_format : Type := DumpFormat {
  fmt_encoding : option string;   (* [None]: the platform default *)
  fmt_ensure_ascii : bool;
  fmt_indent : option nat
}.

(** A file is either the text [json.dump] wrote for a document, or text
    that [json.load] rejects with the given message. *)
Inductive file : Type :=
| Document (fmt : dump_format) (doc : pyval)
| Unparsable (msg : string).

(** An empty file, as [open(path, 'w')] leaves it. *)
Definition empty_file : file :=
  Unparsable "Expecting value: line 1 column 1 (char 0)".

Record state : Type := State {
  fs : gmap string file;     (* the configuration file and [output/] *)
  stdout : list string;      (* one entry per [print] *)
  calls : list string        (* the arguments of the [process_image] calls so far *)
}.

Definition set_fs (f : gmap string file → gmap string file) (s : state) : state :=
  {| fs := f (fs s); stdout := stdout s; calls := calls s |}.

(** How a computation ends: it returns, an [Exception] propagates, or
    [exit(code)] raised [SystemExit], which [except Exception] lets through. *)
Inductive outcome (A : Type) : Type :=
| Ok (a : A)
| Raise (e : exn)
| Exit (code : Z).
Arguments Ok {A} a.
Arguments Raise {A} e.
Arguments Exit {A} code.

Definition M (A : Type) : Type := state → outcome A * state.

Global Instance M_ret : MRet M := λ A a s, (Ok a, s).

Global Instance M_bind : MBind M := λ A B k m s,
  match m s with
  | (Ok a, s') => k a s'
  | (Raise e, s') => (Raise e, s')
  | (Exit c, s') => (Exit c, s')
  end.

Definition raise {A} (e : exn) : M A := λ s, (Raise e, s).

(** [exit(code)] *)
Definition exit {A} (code : Z) : M A := λ s, (Exit code, s).

Definition lift {A} (r : result A) : M A :=
  match r with
  | Returns a => mret a
  | Raises e => raise e
  end.

(** [try: body  except Exception as e: handler e] *)
Definition try_except {A} (body : M A) (handler : exn → M A) : M A := λ s,
  match body s with
  | (Raise e, s') => handler e s'
  | r => r
  end.

(** [try: body  except cls: handler] *)
Definition try_except_cls {A} (cls : exn_class) (body : M A) (handler : M A) : M A :=
  try_except body (λ e, if decide (exn_cls e = cls) then handler else raise e).

(** [print(line)] *)
Definition print (line : string) : M unit := λ s,
  (Ok tt, {| fs := fs s; stdout := stdout s ++ [line]; calls := calls s |}).

(** ** File input and output *)

(** Whether the operating system lets a write go through. *)
Inductive io_outcome : Type :=
| IoOk
| OpenRaises (e : exn)     (* [open(path, 'w')] fails: nothing is created *)
| DumpRaises (e : exn).    (* [json.dump] fails on the opened file *)

(** [open(path, 'w', ...)]: creates the file or truncates it. *)
Definition open_w (io : io_outcome) (path : string) : M unit := λ s,
  match io with
  | OpenRaises e => (Raise e, s)
  | _ => (Ok tt, set_fs (insert path empty_file) s)
  end.

(** [json.dump(doc, f, ...)] on the file opened at [path]. *)
Definition json_dump (io : io_outcome) (path : string) (fmt : dump_format)
    (doc : pyval) : M unit := λ s,
  match io with
  | DumpRaises e => (Raise e, s)
  | _ => (Ok tt, set_fs (insert path (Document fmt doc)) s)
  end.

(** [with open(path, 'r') as file: json.load(file)] *)
Definition open_r_json_load (path : string) : M pyval := λ s,
  match fs s !! path with
  | None =>
      (Raise (Exn FileNotFoundError
                ("[Errno 2] No such file or directory: '" ++ path ++ "'")), s)
  | Some (Document _ doc) => (Ok doc, s)
  | Some (Unparsable msg) => (Raise (Exn JSONDecodeError msg), s)
  end.

(** ** Subscripting *)

Fixpoint assoc (k : string) (d : list (string * pyval)) : option pyval :=
  match d with
  | [] => None
  | (k', v) :: d' => if String.eqb k' k then Some v else assoc k d'
  end.

(** [v[k]] for a string key [k]. *)
Definition getitem (v : pyval) (k : string) : result pyval :=
  match v with
  | PDict d =>
      match assoc k d with
      | Some x => Returns x
      | None => Raises (Exn KeyError ("'" ++ k ++ "'"))
      end
  | PList _ => Raises (Exn TypeError "list indices must be integers or slices, not str")
  | PStr _ => Raises (Exn TypeError "string indices must be integers, not 'str'")
  | PNone => Raises (Exn TypeError "'NoneType' object is not subscriptable")
  | PBool _ => Raises (Exn TypeError "'bool' object is not subscriptable")
  | PInt _ => Raises (Exn TypeError "'int' object is not subscriptable")
  | PFloat _ => Raises (Exn TypeError "'float' object is not subscriptable")
  end.

(** [v.get(k, default)] *)
Definition dict_get (v : pyval) (k : string) (default : pyval) : result pyval :=
  match v with
  | PDict d => Returns (match assoc k d with Some x => x | None => default end)
  | PList _ => Raises (Exn AttributeError "'list' object has no attribute 'get'")
  | PStr _ => Raises (Exn AttributeError "'str' object has no attribute 'get'")
  | PNone => Raises (Exn AttributeError "'NoneType' object has no attribute 'get'")
  | PBool _ => Raises (Exn AttributeError "'bool' object has no attribute 'get'")
  | PInt _ => Raises (Exn AttributeError "'int' object has no attribute 'get'")
  | PFloat _ => Raises (Exn AttributeError "'float' object has no attribute 'get'")
  end.

(** ** What the two vision SDKs return *)

Module Caption.
Record t : Type := Make { text : string; confidence : pyfloat }.
End Caption.

Module Tag.
Record t : Type := Make { name : string; confidence : pyfloat }.
End Tag.

Module BoundingBox.
Record t : Type := Make { x : Z; y : Z; width : Z; height : Z }.
End BoundingBox.

Module DetectedObject.
Record t : Type := Make {
  name : string;
  confidence : pyfloat;
  bounding_box : BoundingBox.t
}.
End DetectedObject.

(** The unified call answers with one object; a feature the service did
    not deliver is [None]. *)
Module ImageAnalysisResult.
Record t : Type := Make {
  caption : option Caption.t;
  dense_captions : option (list Caption.t);
  tags : option (list Tag.t);
  objects : option (list DetectedObject.t)
}.
End ImageAnalysisResult.

Module BoundingRect.
Record t : Type := Make { x : Z; y : Z; w : Z; h : Z }.
End BoundingRect.

Module LegacyObject.
Record t : Type := Make {
  object_property : string;
  confidence : pyfloat;
  rectangle : BoundingRect.t
}.
End LegacyObject.

(** The legacy calls answer with one object each; its list attribute is
    [None] when the payload carried no such array. *)
Module ImageDescription.
Record t : Type := Make { captions : option (list Caption.t) }.
End ImageDescription.

Module TagResult.
Record t : Type := Make { tags : option (list Tag.t) }.
End TagResult.

Module DetectResult.
Record t : Type := Make { objects : option (list LegacyObject.t) }.
End DetectResult.

(** ** The world outside the script *)

(** The oracles that answer during one [process_image] call take the
    number of earlier [process_image] calls of the process as their first
    argument, so that the services and the clock may answer differently
    from one image to the next. *)
Record world : Type := World {
  (* [open(image_path, "rb").read()] *)
  read_image : nat → string → result (list Byte.byte);
  (* [vision_client.analyze(image_data=..., options=...)] *)
  analyze : nat → list Byte.byte → result ImageAnalysisResult.t;
  (* the three legacy calls *)
  describe_image_in_stream : nat → list Byte.byte → result ImageDescription.t;
  tag_image_in_stream : nat → list Byte.byte → result TagResult.t;
  detect_objects_in_stream : nat → list Byte.byte → result DetectResult.t;
  (* [openai_client.chat.completions.create(model=..., messages=...)] for
     the prompt built from the given analysis; the answer is the list of
     [choice.message.content] values *)
  chat_completions_create : nat → pyval → pyval → result (list (option string));
  (* [datetime.now().isoformat()] when the record is assembled *)
  now_isoformat : nat → string;
  (* [datetime.now().isoformat()] in the [except] branch *)
  now_isoformat_except : nat → string;
  (* [time.time()] in [_save_result] *)
  time_time : nat → Q;
  (* the write in [_save_result] *)
  save_io : nat → io_outcome;
  (* [os.listdir(d)] *)
  listdir : string → result (list string);
  (* [os.path.exists(p)] *)
  path_exists : string → bool;
  (* the write of the example configuration *)
  config_io : io_outcome;
  (* the SDK constructors and [os.makedirs(d, exist_ok=True)] *)
  new_vision_client : pyval → pyval → result unit;
  new_openai_client : pyval → pyval → pyval → result unit;
  makedirs : string → result unit
}.

(** [int(x)] for a float [x]: truncation towards zero. *)
Definition int_of_float (x : Q) : Z := Z.quot (Qnum x) (Zpos (Qden x)).

Definition nl : string := String (ascii_of_nat 10) EmptyString.

Global Instance result_ret : MRet result := λ A a, Returns a.

Global Instance result_bind : MBind result := λ A B k r,
  match r with
  | Returns a => k a
  | Raises e => Raises e
  end.

Global Instance result_fmap : FMap result := λ A B f r,
  match r with
  | Returns a => Returns (f a)
  | Raises e => Raises e
  end.

(** [[f(x) for x in l]] where [f] may raise. *)
Fixpoint map_result {A B} (f : A → result B) (l : list A) : result (list B) :=
  match l with
  | [] => Returns []
  | x :: l' =>
      y ← f x;
      ys ← map_result f l';
      mret (y :: ys)
  end.

(** [for x in v]: the items a value yields when iterated. *)
Definition iterate (v : pyval) : result (list pyval) :=
  match v with
  | PList l => Returns l
  | PDict d => Returns (map (λ kv, PStr (fst kv)) d)
  | PStr s => Returns (map (λ a, PStr (String a EmptyString)) (list_ascii_of_string s))
  | PNone => Raises (Exn TypeError "'NoneType' object is not iterable")
  | PBool _ => Raises (Exn TypeError "'bool' object is not iterable")
  | PInt _ => Raises (Exn TypeError "'int' object is not iterable")
  | PFloat _ => Raises (Exn TypeError "'float' object is not iterable")
  end.

(** [[item[k] for item in v[field]]] *)
Definition pluck (v : pyval) (field k : string) : result pyval :=
  items ← getitem v field ≫= iterate;
  PList <$> map_result (λ item, getitem item k) items.

(** ** The class [AzureVisionOpenAIIntegration] *)

(** [self]: the clients hold no state of their own, so an instance is its
    configuration. *)
Record integrator : Type := Integrator { config : pyval }.

Definition example_config : pyval :=
  PDict [
    ("vision", PDict [
      ("endpoint", PStr "https://your-vision-service.cognitiveservices.azure.com/");
      ("api_key", PStr "your-vision-api-key")
    ]);
    ("openai", PDict [
      ("endpoint", PStr "https://your-openai-service.openai.azure.com/");
      ("api_key", PStr "your-openai-api-key");
      ("api_version", PStr "2023-12-01-preview");
      ("deployment_name", PStr "gpt-4o")
    ])
  ].

Definition image_extensions : list string :=
  [".jpg"; ".jpeg"; ".png"; ".bmp"; ".gif"].

Definition caption_entry (caption : Caption.t) : pyval :=
  PDict [("text", PStr (Caption.text caption));
         ("confidence", PFloat (Caption.confidence caption))].

Definition tag_entry (tag : Tag.t) : pyval :=
  PDict [("name", PStr (Tag.name tag));
         ("confidence", PFloat (Tag.confidence tag))].

Definition object_entry (obj : DetectedObject.t) : pyval :=
  PDict [
    ("name", PStr (DetectedObject.name obj));
    ("confidence", PFloat (DetectedObject.confidence obj));
    ("bounding_box", PDict [
      ("x", PInt (BoundingBox.x (DetectedObject.bounding_box obj)));
      ("y", PInt (BoundingBox.y (DetectedObject.bounding_box obj)));
      ("width", PInt (BoundingBox.width (DetectedObject.bounding_box obj)));
      ("height", PInt (BoundingBox.height (DetectedObject.bounding_box obj)))
    ])
  ].

Definition legacy_object_entry (obj : LegacyObject.t) : pyval :=
  PDict [
    ("name", PStr (LegacyObject.object_property obj));
    ("confidence", PFloat (LegacyObject.confidence obj));
    ("bounding_box", PDict [
      ("x", PInt (BoundingRect.x (LegacyObject.rectangle obj)));
      ("y", PInt (BoundingRect.y (LegacyObject.rectangle obj)));
      ("width", PInt (BoundingRect.w (LegacyObject.rectangle obj)));
      ("height", PInt (BoundingRect.h (LegacyObject.rectangle obj)))
    ])
  ].

(** [x or []] *)
Definition or_empty {A} (x : option (list A)) : list A :=
  match x with
  | Some l => l
  | None => []
  end.

(** The dict built in the [if USE_NEW_VISION_API] branch. *)
Definition organize_unified (result : ImageAnalysisResult.t) : pyval :=
  PDict [
    ("caption",
      match ImageAnalysisResult.caption result with
      | Some c => PStr (Caption.text c)
      | None => PStr ""
      end);
    ("confidence",
      match ImageAnalysisResult.caption result with
      | Some c => PFloat (Caption.confidence c)
      | None => PInt 0
      end);
    ("dense_captions",
      PList (map caption_entry (or_empty (ImageAnalysisResult.dense_captions result))));
    ("tags",
      PList (map tag_entry (or_empty (ImageAnalysisResult.tags result))));
    ("objects",
      PList (map object_entry (or_empty (ImageAnalysisResult.objects result))))
  ].

(** [[entry(x) for x in xs]] for an attribute [xs] that may be [None]:
    iterating [None] raises. *)
Definition comprehension {A} (entry : A → pyval) (xs : option (list A))
    : result (list pyval) :=
  match xs with
  | Some l => Returns (map entry l)
  | None => Raises (Exn TypeError "'NoneType' object is not iterable")
  end.

(** The dict of the [else] branch, once its three comprehensions have run
    over the lists [captions], [tags] and [objects]. *)
Definition legacy_dict (captions : list Caption.t) (tags : list Tag.t)
    (objects : list LegacyObject.t) : pyval :=
  PDict [
    ("caption",
      match captions with
      | c :: _ => PStr (Caption.text c)
      | [] => PStr ""
      end);
    ("confidence",
      match captions with
      | c :: _ => PFloat (Caption.confidence c)
      | [] => PInt 0
      end);
    ("dense_captions", PList (map caption_entry captions));
    ("tags", PList (map tag_entry tags));
    ("objects", PList (map legacy_object_entry objects))
  ].

(** The dict built in the [else] branch.  Its entries are evaluated in
    order: the two conditionals take a [None] or empty [captions] for
    false; the three comprehensions iterate their attribute as it is. *)
Definition organize_legacy (describe_results : ImageDescription.t)
    (tags_results : TagResult.t) (detect_objects_results : DetectResult.t)
    : result pyval :=
  let caption :=
    match ImageDescription.captions describe_results with
    | Some (c :: _) => PStr (Caption.text c)
    | _ => PStr ""
    end in
  let confidence :=
    match ImageDescription.captions describe_results with
    | Some (c :: _) => PFloat (Caption.confidence c)
    | _ => PInt 0
    end in
  dense_captions ← comprehension caption_entry
                     (ImageDescription.captions describe_results);
  tags ← comprehension tag_entry (TagResult.tags tags_results);
  objects ← comprehension legacy_object_entry
              (DetectResult.objects detect_objects_results);
  mret (PDict [
    ("caption", caption);
    ("confidence", confidence);
    ("dense_captions", PList dense_captions);
    ("tags", PList tags);
    ("objects", PList objects)
  ]).

(** The values the prompt's f-string reads from the analysis, in the order
    it reads them. *)
Definition prompt_fields (analysis_result : pyval) : result pyval :=
  caption ← getitem analysis_result "caption";
  confidence ← getitem analysis_result "confidence";
  texts ← pluck analysis_result "dense_captions" "text";
  tag_names ← pluck analysis_result "tags" "name";
  object_names ← pluck analysis_result "objects" "name";
  mret (PList [caption; confidence; texts; tag_names; object_names]).

(** The dict literal of the [try] branch of [process_image]. *)
Definition success_record (timestamp image_path : string)
    (analysis_result generated_text : pyval) : pyval :=
  PDict [
    ("timestamp", PStr timestamp);
    ("image_path", PStr image_path);
    ("analysis", analysis_result);
    ("generated_text", generated_text)
  ].

(** The dict literal of its [except] branch. *)
Definition error_record (timestamp image_path error : string) : pyval :=
  PDict [
    ("timestamp", PStr timestamp);
    ("image_path", PStr image_path);
    ("error", PStr error)
  ].

(** [self.config["openai"]["deployment_name"]] *)
Definition deployment_name_of (self : integrator) : result pyval :=
  getitem (config self) "openai" ≫= λ o, getitem o "deployment_name".

Definition placeholder_prefix : string :=
  "Não foi possível gerar uma descrição. Erro: ".

Definition save_format : dump_format :=
  DumpFormat (Some "utf-8") false (Some 4%nat).

Definition config_format : dump_format :=
  DumpFormat None true (Some 4%nat).

(** The parsed command line: [--config] (default [config.json]) and [--image]. *)
Record arguments : Type := Args { arg_config : string; arg_image : option string }.

Section AzureVisionOpenAIIntegration.

(** Fixed when the module is imported: whether [azure.ai.vision] is there. *)
Variable USE_NEW_VISION_API : bool.
Variable w : world.

Definition _load_config (config_path : string) : M pyval :=
  try_except_cls FileNotFoundError
    (open_r_json_load config_path)
    (print ("Arquivo de configuração '" ++ config_path ++ "' não encontrado.");;
     print "Criando arquivo de configuração de exemplo...";;
     open_w (config_io w) config_path;;
     json_dump (config_io w) config_path config_format example_config;;
     print ("Arquivo de configuração de exemplo criado em '" ++ config_path ++ "'.");;
     print "Por favor, edite-o com suas credenciais antes de executar o programa novamente.";;
     exit 1).

Definition _initialize_vision_client (self : integrator) : M unit :=
  vision_endpoint ← lift (getitem (config self) "vision" ≫= λ v, getitem v "endpoint");
  vision_key ← lift (getitem (config self) "vision" ≫= λ v, getitem v "api_key");
  lift (new_vision_client w vision_endpoint vision_key).

Definition _initialize_openai_client (self : integrator) : M unit :=
  openai_endpoint ← lift (getitem (config self) "openai" ≫= λ o, getitem o "endpoint");
  openai_key ← lift (getitem (config self) "openai" ≫= λ o, getitem o "api_key");
  api_version ← lift (getitem (config self) "openai" ≫= λ o,
                      dict_get o "api_version" (PStr "2023-12-01-preview"));
  lift (new_openai_client w openai_endpoint openai_key api_version).

Definition _setup_directories : M unit :=
  lift (makedirs w "input");;
  lift (makedirs w "output").

Definition __init__ (config_path : string) : M integrator :=
  config ← _load_config config_path;
  let self := Integrator config in
  _initialize_vision_client self;;
  _initialize_openai_client self;;
  _setup_directories;;
  mret self.

Definition analyze_image (n : nat) (image_path : string) : M pyval :=
  print ("Analisando imagem: " ++ image_path);;
  image_data ← lift (read_image w n image_path);
  if USE_NEW_VISION_API then
    result ← lift (analyze w n image_data);
    mret (organize_unified result)
  else
    describe_results ← lift (describe_image_in_stream w n image_data);
    tags_results ← lift (tag_image_in_stream w n image_data);
    detect_objects_results ← lift (detect_objects_in_stream w n image_data);
    lift (organize_legacy describe_results tags_results detect_objects_results).

Definition generate_text (self : integrator) (n : nat) (analysis_result : pyval)
    : M pyval :=
  print "Gerando descrição detalhada com GPT-4o...";;
  prompt ← lift (prompt_fields analysis_result);
  deployment_name ← lift (deployment_name_of self);
  try_except
    (choices ← lift (chat_completions_create w n deployment_name prompt);
     match choices with
     | Some content :: _ => mret (PStr content)
     | None :: _ => mret PNone
     | [] => raise (Exn IndexError "list index out of range")
     end)
    (λ e,
      print ("Erro ao gerar texto com o OpenAI: " ++ exn_str e);;
      mret (PStr (placeholder_prefix ++ exn_str e))).

Definition output_path_of (image_path : string) (now : Q) : string :=
  let base_name := PyStr.basename image_path in
  let file_name := fst (PyStr.splitext base_name) in
  "output/" ++ file_name ++ "_" ++ pretty (int_of_float now) ++ ".json".

Definition _save_result (n : nat) (result : pyval) (image_path : string) : M unit :=
  let output_path := output_path_of image_path (time_time w n) in
  open_w (save_io w n) output_path;;
  json_dump (save_io w n) output_path save_format result;;
  print ("Resultado salvo em: " ++ output_path).

(** Entering [process_image]: the call is recorded and numbered. *)
Definition enter (image_path : string) : M nat := λ s,
  (Ok (length (calls s)),
   {| fs := fs s; stdout := stdout s; calls := calls s ++ [image_path] |}).

Definition process_image (self : integrator) (image_path : string) : M pyval :=
  n ← enter image_path;
  try_except
    (analysis_result ← analyze_image n image_path;
     generated_text ← generate_text self n analysis_result;
     let result :=
       success_record (now_isoformat w n) image_path analysis_result generated_text in
     _save_result n result image_path;;
     mret result)
    (λ e,
      print ("Erro ao processar a imagem " ++ image_path ++ ": " ++ exn_str e);;
      mret (error_record (now_isoformat_except w n) image_path (exn_str e))).

(** [os.path.splitext(f.lower())[1] in image_extensions] *)
Definition is_image_file (f : string) : Prop :=
  snd (PyStr.splitext (PyStr.lower f)) ∈ image_extensions.

Global Instance is_image_file_dec f : Decision (is_image_file f).
Proof. unfold is_image_file. apply _. Defined.

(** The [for image_file in image_files] loop. *)
Fixpoint process_each (self : integrator) (input_dir : string)
    (image_files : list string) : M unit :=
  match image_files with
  | [] => mret tt
  | image_file :: rest =>
      let image_path := PyStr.join input_dir image_file in
      print (nl ++ "Processando: " ++ image_file);;
      process_image self image_path;;
      process_each self input_dir rest
  end.

Definition process_all_images (self : integrator) : M unit :=
  let input_dir := "input" in
  files ← lift (listdir w input_dir);
  let image_files := filter is_image_file files in
  match image_files with
  | [] => print "Nenhuma imagem encontrada na pasta 'input'."
  | _ =>
      print ("Encontradas " ++ pretty (length image_files) ++ " imagens para processar.");;
      process_each self input_dir image_files;;
      print (nl ++ "Processamento concluído!")
  end.

Definition main (args : arguments) : M unit :=
  integrator ← __init__ (arg_config args);
  match arg_image args with
  | Some (String c image') =>
      let image := String c image' in
      if path_exists w image then
        process_image integrator image;; mret tt
      else
        print ("Imagem não encontrada: " ++ image)
  | _ => process_all_images integrator
  end.

End AzureVisionOpenAIIntegration.

(** ** Vocabulary of the specification *)

(** The keys of a dict, in order. *)
Definition keys (v : pyval) : list string :=
  match v with
  | PDict d => map fst d
  | _ => []
  end.

(** [v[k]] when [v] is a dict that has the key. *)
Definition field (k : string) (v : pyval) : option pyval :=
  match v with
  | PDict d => assoc k d
  | _ => None
  end.

(** The shapes the specification's data model speaks of. *)
#[warnings="-register-all"] Inductive shape : Type :=
| SStr
| SNum
| SInt
| SList (item : shape)
| SDict (fields : list (string * shape)).

(** [conforms sh v]: [v] has exactly the keys of [sh], in its order, with
    values of the shapes it names. *)
Fixpoint conforms (sh : shape) (v : pyval) {struct sh} : bool :=
  match sh, v with
  | SStr, PStr _ => true
  | SNum, (PInt _ | PFloat _) => true
  | SInt, PInt _ => true
  | SList item, PList l => forallb (conforms item) l
  | SDict fields, PDict d =>
      (fix go (fields : list (string * shape)) (d : list (string * pyval)) : bool :=
         match fields, d with
         | [], [] => true
         | (k, sh') :: fields', (k', v') :: d' =>
             String.eqb k k' && conforms sh' v' && go fields' d'
         | _, _ => false
         end) fields d
  | _, _ => false
  end.

(** The data model's AnalysisResult. *)
Definition AnalysisResult : shape :=
  SDict [
    ("caption", SStr);
    ("confidence", SNum);
    ("dense_captions", SList (SDict [("text", SStr); ("confidence", SNum)]));
    ("tags", SList (SDict [("name", SStr); ("confidence", SNum)]));
    ("objects", SList (SDict [
      ("name", SStr);
      ("confidence", SNum);
      ("bounding_box", SDict [("x", SInt); ("y", SInt); ("width", SInt); ("height", SInt)])
    ]))
  ].

(** The text [json.dump] writes for [v] is JSON: [NaN], [Infinity] and
    [-Infinity], which it writes for the non-finite floats, are not. *)
Fixpoint json_valid (v : pyval) : bool :=
  match v with
  | PFloat (Finite _) => true
  | PFloat _ => false
  | PList l => forallb json_valid l
  | PDict d => forallb (λ kv, json_valid (snd kv)) d
  | _ => true
  end.

(** Every value stored under the key [confidence], at any depth. *)
Fixpoint confidence_values (v : pyval) : list pyval :=
  match v with
  | PList l => flat_map confidence_values l
  | PDict d =>
      flat_map (λ kv, ((if String.eqb (fst kv) "confidence" then [snd kv] else [])
                       ++ confidence_values (snd kv))%list) d
  | _ => []
  end.

(** A float in [[0, 1]]. *)
Definition unit_float (f : pyfloat) : Prop :=
  match f with
  | Finite q => (0 <= q)%Q ∧ (q <= 1)%Q
  | _ => False
  end.

(** A number in [[0, 1]]. *)
Definition in_unit (v : pyval) : Prop :=
  match v with
  | PInt z => 0 ≤ z ≤ 1
  | PFloat f => unit_float f
  | _ => False
  end.

(** The two variants of a ProcessedRecord. *)
Definition success_keys : list string :=
  ["timestamp"; "image_path"; "analysis"; "generated_text"].

Definition error_keys : list string :=
  ["timestamp"; "image_path"; "error"].

(** What the vision service answered, under either strategy, when the
    analysis can be built from it: the object of the unified call, or the
    three lists of the legacy calls. *)
Inductive upstream : Type :=
| Unified (result : ImageAnalysisResult.t)
| Legacy (captions : list Caption.t) (tags : list Tag.t)
         (objects : list LegacyObject.t).

(** The service calls of the strategy in use return [u] for the bytes;
    under the legacy strategy, each call returns its object with the list
    attribute present. *)
Definition vision_returns (USE_NEW_VISION_API : bool) (w : world) (n : nat)
    (image_data : list Byte.byte) (u : upstream) : Prop :=
  match u with
  | Unified result =>
      USE_NEW_VISION_API = true ∧ analyze w n image_data = Returns result
  | Legacy d t o =>
      USE_NEW_VISION_API = false
      ∧ describe_image_in_stream w n image_data
        = Returns (ImageDescription.Make (Some d))
      ∧ tag_image_in_stream w n image_data = Returns (TagResult.Make (Some t))
      ∧ detect_objects_in_stream w n image_data
        = Returns (DetectResult.Make (Some o))
  end.

(** The dict [analyze_image] builds from an answer. *)
Definition organize (u : upstream) : pyval :=
  match u with
  | Unified result => organize_unified result
  | Legacy d t o => legacy_dict d t o
  end.

(** Every confidence the service sent lies in [[0, 1]]. *)
Definition upstream_confidences_in_unit (u : upstream) : Prop :=
  match u with
  | Unified r =>
      (∀ c, ImageAnalysisResult.caption r = Some c → unit_float (Caption.confidence c))
      ∧ Forall (λ c, unit_float (Caption.confidence c))
               (or_empty (ImageAnalysisResult.dense_captions r))
      ∧ Forall (λ t, unit_float (Tag.confidence t))
               (or_empty (ImageAnalysisResult.tags r))
      ∧ Forall (λ o, unit_float (DetectedObject.confidence o))
               (or_empty (ImageAnalysisResult.objects r))
  | Legacy d t o =>
      Forall (λ c, unit_float (Caption.confidence c)) d
      ∧ Forall (λ t, unit_float (Tag.confidence t)) t
      ∧ Forall (λ o, unit_float (LegacyObject.confidence o)) o
  end.

(** The legacy answer, written in the unified vocabulary. *)
Definition unified_object (obj : LegacyObject.t) : DetectedObject.t :=
  DetectedObject.Make
    (LegacyObject.object_property obj)
    (LegacyObject.confidence obj)
    (BoundingBox.Make
       (BoundingRect.x (LegacyObject.rectangle obj))
       (BoundingRect.y (LegacyObject.rectangle obj))
       (BoundingRect.w (LegacyObject.rectangle obj))
       (BoundingRect.h (LegacyObject.rectangle obj))).

Definition unified_of_legacy (d : list Caption.t) (t : list Tag.t)
    (o : list LegacyObject.t) : ImageAnalysisResult.t :=
  ImageAnalysisResult.Make (head d) (Some d) (Some t) (Some (map unified_object o)).

(** [m] touches neither the files nor the call trace, and does not exit. *)
Definition quiet {A} (m : M A) : Prop :=
  ∀ s, fs (m s).2 = fs s ∧ calls (m s).2 = calls s ∧ ∀ c, (m s).1 ≠ Exit c.

(** What [generate_text] makes of the completion call's outcome. *)
Definition generated (r : result (list (option string))) : pyval :=
  match r with
  | Returns (Some content :: _) => PStr content
  | Returns (None :: _) => PNone
  | Returns [] => PStr (placeholder_prefix ++ "list index out of range")
  | Raises e => PStr (placeholder_prefix ++ exn_str e)
  end.

(** The state in which the [try] block of [process_image] starts. *)
Definition entered (image_path : string) (s : state) : state :=
  {| fs := fs s; stdout := stdout s; calls := (calls s ++ [image_path])%list |}.

(** [needle in hay] *)
Definition contains (needle hay : string) : Prop :=
  ∃ pre post, hay = pre ++ needle ++ post.

(** The run from [s] to [s'] wrote a complete document to a path and the
    document satisfies [P]. *)
Definition wrote_record (P : pyval → Prop) (s s' : state) : Prop :=
  ∃ path fmt doc,
    fs s' !! path = Some (Document fmt doc)
    ∧ fs s !! path ≠ Some (Document fmt doc)
    ∧ P doc.

(** ** The example scenario of the specification *)

Definition cat_result : ImageAnalysisResult.t :=
  ImageAnalysisResult.Make
    (Some (Caption.Make "a cat sitting on a chair" (Finite (92 # 100))))
    None
    (Some [Tag.Make "cat" (Finite (99 # 100));
           Tag.Make "chair" (Finite (95 # 100));
           Tag.Make "indoor" (Finite (90 # 100))])
    (Some [DetectedObject.Make "cat" (Finite (88 # 100))
             (BoundingBox.Make 10 20 100 120)]).

Definition cat_description : ImageDescription.t :=
  ImageDescription.Make
    (Some [Caption.Make "a cat sitting on a chair" (Finite (92 # 100))]).

Definition cat_tags : TagResult.t :=
  TagResult.Make (Some [Tag.Make "cat" (Finite (99 # 100));
                        Tag.Make "chair" (Finite (95 # 100));
                        Tag.Make "indoor" (Finite (90 # 100))]).

Definition cat_objects : DetectResult.t :=
  DetectResult.Make (Some [LegacyObject.Make "cat" (Finite (88 # 100))
                             (BoundingRect.Make 10 20 100 120)]).

(** A world in which every image is the cat, the clock stands at [now],
    and the remaining behaviour is given. *)
Definition scenario (files : list string)
    (vision : result ImageAnalysisResult.t)
    (chat : result (list (option string)))
    (now : Q) (save config_write : io_outcome) : world :=
  {| read_image := λ _ _, Returns [];
     analyze := λ _ _, vision;
     describe_image_in_stream := λ _ _, Returns cat_description;
     tag_image_in_stream := λ _ _, Returns cat_tags;
     detect_objects_in_stream := λ _ _, Returns cat_objects;
     chat_completions_create := λ _ _ _, chat;
     now_isoformat := λ _, "2024-01-01T12:00:00.250000";
     now_isoformat_except := λ _, "2024-01-01T12:00:00.500000";
     time_time := λ _, now;
     save_io := λ _, save;
     listdir := λ _, Returns files;
     path_exists := λ _, true;
     config_io := config_write;
     new_vision_client := λ _ _, Returns tt;
     new_openai_client := λ _ _ _, Returns tt;
     makedirs := λ _, Returns tt |}.

(** The cat, answered without a [tags] list and without an [objects] list. *)
Definition cat_result_without_tags : ImageAnalysisResult.t :=
  ImageAnalysisResult.Make
    (Some (Caption.Make "a cat sitting on a chair" (Finite (92 # 100))))
    None
    None
    (Some [DetectedObject.Make "cat" (Finite (88 # 100))
             (BoundingBox.Make 10 20 100 120)]).

Definition cat_result_without_objects : ImageAnalysisResult.t :=
  ImageAnalysisResult.Make
    (Some (Caption.Make "a cat sitting on a chair" (Finite (92 # 100))))
    None
    (Some [Tag.Make "cat" (Finite (99 # 100))])
    None.

(** A world under the legacy strategy whose three calls return the given
    objects. *)
Definition legacy_scenario (d : ImageDescription.t) (t : TagResult.t)
    (o : DetectResult.t) : world :=
  {| read_image := λ _ _, Returns [];
     analyze := λ _ _, Raises (Exn ServiceError "not available");
     describe_image_in_stream := λ _ _, Returns d;
     tag_image_in_stream := λ _ _, Returns t;
     detect_objects_in_stream := λ _ _, Returns o;
     chat_completions_create := λ _ _ _, Returns [Some "Um gato."];
     now_isoformat := λ _, "2024-01-01T12:00:00.250000";
     now_isoformat_except := λ _, "2024-01-01T12:00:00.500000";
     time_time := λ _, 17040672002 # 10;
     save_io := λ _, IoOk;
     listdir := λ _, Returns ["cat.jpg"];
     path_exists := λ _, true;
     config_io := IoOk;
     new_vision_client := λ _ _, Returns tt;
     new_openai_client := λ _ _ _, Returns tt;
     makedirs := λ _, Returns tt |}.

Definition service_down : exn := Exn ServiceError "Connection error.".
Definition disk_full : exn := Exn OSError "[Errno 28] No space left on device".

Definition four_part_description : string :=
  "1. Um gato sentado em uma cadeira. 2. Ambiente interno. 3. O gato. 4. Banco de imagens.".

Definition world_ok : world :=
  scenario ["cat.jpg"] (Returns cat_result) (Returns [Some four_part_description])
           (17040672002 # 10) IoOk IoOk.

Definition world_vision_down : world :=
  scenario ["cat.jpg"; "dog.png"] (Raises service_down)
           (Returns [Some four_part_description]) (17040672002 # 10) IoOk IoOk.

Definition world_chat_down : world :=
  scenario ["cat.jpg"] (Returns cat_result) (Raises service_down)
           (17040672002 # 10) IoOk IoOk.

Definition world_disk_full : world :=
  scenario ["cat.jpg"] (Returns cat_result) (Returns [Some four_part_description])
           (17040672002 # 10) (DumpRaises disk_full) IoOk.

Definition configured : integrator := Integrator example_config.

Definition initial : state := {| fs := ∅; stdout := []; calls := [] |}.

Definition other_description : string :=
  "1. Um gato. 2. Uma sala. 3. A cadeira. 4. Catálogo.".

(** The same image, processed again [7/10] of a second later. *)
Definition world_same_second : world :=
  scenario ["cat.jpg"] (Returns cat_result) (Returns [Some other_description])
           (17040672009 # 10) IoOk IoOk.

(** The same image, processed again a minute later. *)
Definition world_next_minute : world :=
  scenario ["cat.jpg"] (Returns cat_result) (Returns [Some other_description])
           (17040672602 # 10) IoOk IoOk.

(** A new process that finds the files of an earlier one. *)
Definition restart (s : state) : state :=
  {| fs := fs s; stdout := []; calls := [] |}.

(** The stages of [process_image] that can raise. *)
Inductive stage : Type :=
| Analysis
| Generation
| OpenOutput
| DumpOutput.

(** Stage [st] of [process_image self image_path], started in [s], raises
    [e]; the stages before it return. *)
Definition stage_raises (USE_NEW_VISION_API : bool) (w : world) (self : integrator)
    (image_path : string) (s : state) (st : stage) (e : exn) : Prop :=
  let n := length (calls s) in
  match st with
  | Analysis =>
      ∃ s1, analyze_image USE_NEW_VISION_API w n image_path (entered image_path s)
            = (Raise e, s1)
  | Generation =>
      ∃ a s1 s2,
        analyze_image USE_NEW_VISION_API w n image_path (entered image_path s) = (Ok a, s1)
        ∧ generate_text w self n a s1 = (Raise e, s2)
  | OpenOutput =>
      ∃ a s1 g s2,
        analyze_image USE_NEW_VISION_API w n image_path (entered image_path s) = (Ok a, s1)
        ∧ generate_text w self n a s1 = (Ok g, s2)
        ∧ save_io w n = OpenRaises e
  | DumpOutput =>
      ∃ a s1 g s2,
        analyze_image USE_NEW_VISION_API w n image_path (entered image_path s) = (Ok a, s1)
        ∧ generate_text w self n a s1 = (Ok g, s2)
        ∧ save_io w n = DumpRaises e
  end.

(** The [endpoint] and [api_key] entries of a configuration, with the
    section they stand in. *)
Definition endpoint_key_fields (cfg : pyval) : list (string * string * pyval) :=
  match cfg with
  | PDict sections =>
      flat_map (λ sec,
        match snd sec with
        | PDict entries =>
            flat_map (λ kv,
              if bool_decide (fst kv ∈ ["endpoint"; "api_key"])
              then [(fst sec, fst kv, snd kv)] else []) entries
        | _ => []
        end) sections
  | _ => []
  end.

(** ** Vocabulary of the further properties *)

(** [c in s] *)
Fixpoint occurs (c : ascii) (s : string) : bool :=
  match s with
  | EmptyString => false
  | String a s' => Ascii.eqb a c || occurs c s'
  end.

(** The path lies in the directory [output]. *)
Definition in_output (path : string) : Prop :=
  ∃ name, path = "output/" ++ name.

(** The confidences the service sent, in the order of the fields of the
    analysis: the caption's (or the default), then those of the dense
    captions, the tags and the objects. *)
Definition upstream_confidences (u : upstream) : list pyval :=
  match u with
  | Unified r =>
      (match ImageAnalysisResult.caption r with
       | Some c => PFloat (Caption.confidence c)
       | None => PInt 0
       end)
      :: map (λ c, PFloat (Caption.confidence c))
             (or_empty (ImageAnalysisResult.dense_captions r))
      ++ map (λ t, PFloat (Tag.confidence t)) (or_empty (ImageAnalysisResult.tags r))
      ++ map (λ o, PFloat (DetectedObject.confidence o))
             (or_empty (ImageAnalysisResult.objects r))
  | Legacy d t o =>
      (match d with
       | c :: _ => PFloat (Caption.confidence c)
       | [] => PInt 0
       end)
      :: map (λ c, PFloat (Caption.confidence c)) d
      ++ map (λ t, PFloat (Tag.confidence t)) t
      ++ map (λ o, PFloat (LegacyObject.confidence o)) o
  end%list.

(** What the service said, as the prompt quotes it: the caption and its
    confidence, the texts of the dense captions, the names of the tags
    and the names of the objects. *)
Definition upstream_prompt (u : upstream) : pyval :=
  match u with
  | Unified r =>
      PList [
        match ImageAnalysisResult.caption r with
        | Some c => PStr (Caption.text c)
        | None => PStr ""
        end;
        match ImageAnalysisResult.caption r with
        | Some c => PFloat (Caption.confidence c)
        | None => PInt 0
        end;
        PList (map (λ c, PStr (Caption.text c))
                 (or_empty (ImageAnalysisResult.dense_captions r)));
        PList (map (λ t, PStr (Tag.name t)) (or_empty (ImageAnalysisResult.tags r)));
        PList (map (λ o, PStr (DetectedObject.name o))
                 (or_empty (ImageAnalysisResult.objects r)))
      ]
  | Legacy d t o =>
      PList [
        match d with
        | c :: _ => PStr (Caption.text c)
        | [] => PStr ""
        end;
        match d with
        | c :: _ => PFloat (Caption.confidence c)
        | [] => PInt 0
        end;
        PList (map (λ c, PStr (Caption.text c)) d);
        PList (map (λ t, PStr (Tag.name t)) t);
        PList (map (λ o, PStr (LegacyObject.object_property o)) o)
      ]
  end.

(** The error of the first call of [analyze_image] that fails, in the
    order in which it makes them, once the image is read. *)
Definition first_vision_failure (USE_NEW_VISION_API : bool) (w : world) (n : nat)
    (image_data : list Byte.byte) : option exn :=
  if USE_NEW_VISION_API then
    match analyze w n image_data with
    | Raises e => Some e
    | Returns _ => None
    end
  else
    match describe_image_in_stream w n image_data with
    | Raises e => Some e
    | Returns _ =>
        match tag_image_in_stream w n image_data with
        | Raises e => Some e
        | Returns _ =>
            match detect_objects_in_stream w n image_data with
            | Raises e => Some e
            | Returns _ => None
            end
        end
    end.

(** A configuration whose [openai] section names no deployment. *)
Definition config_without_deployment : pyval :=
  PDict [
    ("vision", PDict [("endpoint", PStr "https://v.example/"); ("api_key", PStr "k1")]);
    ("openai", PDict [("endpoint", PStr "https://o.example/"); ("api_key", PStr "k2")])
  ].

(** A world in which the legacy describe call fails first and the tag
    call would fail too. *)
Definition world_legacy_down : world :=
  {| read_image := λ _ _, Returns [];
     analyze := λ _ _, Returns cat_result;
     describe_image_in_stream := λ _ _, Raises (Exn ServiceError "describe failed");
     tag_image_in_stream := λ _ _, Raises (Exn ServiceError "tag failed");
     detect_objects_in_stream := λ _ _, Returns cat_objects;
     chat_completions_create := λ _ _ _, Returns [Some four_part_description];
     now_isoformat := λ _, "2024-01-01T12:00:00.250000";
     now_isoformat_except := λ _, "2024-01-01T12:00:00.500000";
     time_time := λ _, 17040672002 # 10;
     save_io := λ _, IoOk;
     listdir := λ _, Returns ["cat.jpg"];
     path_exists := λ _, true;
     config_io := IoOk;
     new_vision_client := λ _ _, Returns tt;
     new_openai_client := λ _ _ _, Returns tt;
     makedirs := λ _, Returns tt |}.

(** From [m] to [m'] no file is removed, files outside [output/] are as
    they were, and at most [k] files are new. *)
Definition grows_in_output (m m' : gmap string file) (k : nat) : Prop :=
  (∀ p, ¬ in_output p → m' !! p = m !! p)
  ∧ dom m ⊆ dom m'
  ∧ (size m' ≤ size m + k)%nat.

(** A process that starts with the template configuration in place. *)
Definition configured_start : state :=
  {| fs := {[ "config.json" := Document config_format example_config ]};
     stdout := []; calls := [] |}.

(** A world in which the path given on the command line does not exist. *)
Definition world_no_such_image : world :=
  {| read_image := λ _ _, Returns [];
     analyze := λ _ _, Returns cat_result;
     describe_image_in_stream := λ _ _, Returns cat_description;
     tag_image_in_stream := λ _ _, Returns cat_tags;
     detect_objects_in_stream := λ _ _, Returns cat_objects;
     chat_completions_create := λ _ _ _, Returns [Some four_part_description];
     now_isoformat := λ _, "2024-01-01T12:00:00.250000";
     now_isoformat_except := λ _, "2024-01-01T12:00:00.500000";
     time_time := λ _, 17040672002 # 10;
     save_io := λ _, IoOk;
     listdir := λ _, Returns ["cat.jpg"];
     path_exists := λ _, false;
     config_io := IoOk;
     new_vision_client := λ _ _, Returns tt;
     new_openai_client := λ _ _ _, Returns tt;
     makedirs := λ _, Returns tt |}.

(** * Properties *)

(** ** [os.path] on examples *)

Example splitext_cat : PyStr.splitext "cat.JPG" = ("cat", ".JPG").
Proof. reflexivity. Qed.
Example splitext_hidden : PyStr.splitext ".jpg" = (".jpg", "").
Proof. reflexivity. Qed.
Example splitext_dir : PyStr.splitext "in.put/cat" = ("in.put/cat", "").
Proof. reflexivity. Qed.
Example splitext_tar : PyStr.splitext "a/b.tar.gz" = ("a/b.tar", ".gz").
Proof. reflexivity. Qed.
Example splitext_dots : PyStr.splitext "a/..x" = ("a/..x", "").
Proof. reflexivity. Qed.
Example basename_ex : PyStr.basename "input/cat.jpg" = "cat.jpg".
Proof. reflexivity. Qed.
Example join_ex : PyStr.join "input" "cat.jpg" = "input/cat.jpg".
Proof. reflexivity. Qed.
Example lower_ex : PyStr.lower "Cat.JPG" = "cat.jpg".
Proof. reflexivity. Qed.
Example splitext_two_dots : PyStr.splitext "..jpg" = ("..jpg", "").
Proof. reflexivity. Qed.
Example splitext_hidden_in_dir : PyStr.splitext "a.b/.gif" = ("a.b/.gif", "").
Proof. reflexivity. Qed.
Example splitext_trailing_dot : PyStr.splitext "x." = ("x", ".").
Proof. reflexivity. Qed.
Example splitext_hidden_png : PyStr.splitext "input/.hidden.png" = ("input/.hidden", ".png").
Proof. reflexivity. Qed.
Example basename_dir : PyStr.basename "a.jpg/" = "".
Proof. reflexivity. Qed.
Example join_absolute : PyStr.join "input" "/abs" = "/abs".
Proof. reflexivity. Qed.
Example join_slash : PyStr.join "input/" "x" = "input/x".
Proof. reflexivity. Qed.
Example int_of_float_pos : int_of_float (17040672009 # 10) = 1704067200.
Proof. reflexivity. Qed.
Example int_of_float_neg : int_of_float (-37 # 10) = -3.
Proof. reflexivity. Qed.
Example selected_upper : is_image_file "DOG.PNG".
Proof. by apply (bool_decide_unpack _). Qed.
Example not_selected_hidden : ¬ is_image_file ".jpg".
Proof. by apply (bool_decide_unpack _). Qed.
Example not_selected_text : ¬ is_image_file "notes.txt".
Proof. by apply (bool_decide_unpack _). Qed.

(** ** The two vision strategies *)

Section Organize.

Lemma conforms_caption_entries (l : list Caption.t) :
  forallb (conforms (SDict [("text", SStr); ("confidence", SNum)]))
          (map caption_entry l) = true.
Proof. induction l as [|c l IH]; [reflexivity|]. simpl. exact IH. Qed.

Lemma conforms_tag_entries (l : list Tag.t) :
  forallb (conforms (SDict [("name", SStr); ("confidence", SNum)]))
          (map tag_entry l) = true.
Proof. induction l as [|c l IH]; [reflexivity|]. simpl. exact IH. Qed.

Lemma conforms_object_entries (l : list DetectedObject.t) :
  forallb (conforms (SDict [
             ("name", SStr);
             ("confidence", SNum);
             ("bounding_box",
               SDict [("x", SInt); ("y", SInt); ("width", SInt); ("height", SInt)])]))
          (map object_entry l) = true.
Proof. induction l as [|c l IH]; [reflexivity|]. simpl. exact IH. Qed.

Lemma conforms_organize_unified (r : ImageAnalysisResult.t) :
  conforms AnalysisResult (organize_unified r) = true.
Proof.
  unfold AnalysisResult, organize_unified.
  cbn [conforms String.eqb Ascii.eqb Bool.eqb andb].
  rewrite conforms_caption_entries, conforms_tag_entries, conforms_object_entries.
  destruct (ImageAnalysisResult.caption r); reflexivity.
Qed.

Lemma organize_legacy_unified d t o :
  legacy_dict d t o = organize_unified (unified_of_legacy d t o).
Proof.
  unfold legacy_dict, organize_unified, unified_of_legacy. simpl.
  rewrite map_map.
  destruct d; reflexivity.
Qed.

Lemma conforms_organize (u : upstream) :
  conforms AnalysisResult (organize u) = true.
Proof.
  destruct u as [r|d t o]; cbn [organize].
  - apply conforms_organize_unified.
  - rewrite organize_legacy_unified. apply conforms_organize_unified.
Qed.

Lemma keys_organize (u : upstream) :
  keys (organize u) = ["caption"; "confidence"; "dense_captions"; "tags"; "objects"].
Proof. destruct u; reflexivity. Qed.

End Organize.

(** ** Running the monad *)

Section Run.

Context {A B : Type}.

Lemma bind_Ok (m : M A) (k : A → M B) s a s' :
  m s = (Ok a, s') → (m ≫= k) s = k a s'.
Proof. intros H. unfold mbind, M_bind. rewrite H. reflexivity. Qed.

End Run.

Lemma quiet_ret {A} (a : A) : quiet (mret a).
Proof. intros s. simpl. done. Qed.

Lemma quiet_raise {A} (e : exn) : quiet (@raise A e).
Proof. intros s. simpl. done. Qed.

Lemma quiet_lift {A} (r : result A) : quiet (lift r).
Proof. destruct r; [apply quiet_ret | apply quiet_raise]. Qed.

Lemma quiet_print line : quiet (print line).
Proof. intros s. simpl. done. Qed.

Lemma quiet_bind {A B} (m : M A) (k : A → M B) :
  quiet m → (∀ a, quiet (k a)) → quiet (m ≫= k).
Proof.
  intros Hm Hk s. specialize (Hm s). unfold mbind, M_bind.
  destruct (m s) as [[a|e|c] s1]; simpl in *.
  - destruct Hm as (Hf & Hc & _). specialize (Hk a s1).
    rewrite <- Hf, <- Hc. exact Hk.
  - destruct Hm as (Hf & Hc & _). done.
  - destruct Hm as (_ & _ & Hx). by destruct (Hx c).
Qed.

Lemma quiet_try_except {A} (m : M A) (h : exn → M A) :
  quiet m → (∀ e, quiet (h e)) → quiet (try_except m h).
Proof.
  intros Hm Hh s. specialize (Hm s). unfold try_except.
  destruct (m s) as [[a|e|c] s1]; simpl in *; [done| |done].
  destruct Hm as (Hf & Hc & _). specialize (Hh e s1).
  rewrite <- Hf, <- Hc. exact Hh.
Qed.

Create HintDb quiet.
#[local] Hint Resolve quiet_ret quiet_raise quiet_lift quiet_print : quiet.

Ltac quiet_tac :=
  repeat first
    [ apply quiet_bind; [|intros ?]
    | apply quiet_try_except; [|intros ?]
    | solve [auto with quiet] ].

(** ** The vision adapter *)

Section Adapter.

Variable USE_NEW_VISION_API : bool.
Variable w : world.

Lemma quiet_analyze_image n image_path :
  quiet (analyze_image USE_NEW_VISION_API w n image_path).
Proof. unfold analyze_image. destruct USE_NEW_VISION_API; quiet_tac. Qed.

Lemma analyze_image_Ok n image_path s image_data u :
  read_image w n image_path = Returns image_data →
  vision_returns USE_NEW_VISION_API w n image_data u →
  ∃ s', analyze_image USE_NEW_VISION_API w n image_path s = (Ok (organize u), s')
        ∧ fs s' = fs s ∧ calls s' = calls s.
Proof.
  intros Hread Hu. unfold analyze_image, mbind, M_bind. simpl. rewrite Hread. simpl.
  destruct u as [r|d t o]; simpl in Hu.
  - destruct Hu as [-> Hr]. rewrite Hr. simpl. eauto.
  - destruct Hu as (-> & Hd & Ht & Ho). rewrite Hd. simpl. rewrite Ht. simpl.
    rewrite Ho. simpl. eauto.
Qed.

Lemma analyze_image_Ok_inv n image_path s a s' :
  analyze_image USE_NEW_VISION_API w n image_path s = (Ok a, s') →
  ∃ image_data u,
    read_image w n image_path = Returns image_data
    ∧ vision_returns USE_NEW_VISION_API w n image_data u
    ∧ a = organize u.
Proof.
  unfold analyze_image, mbind, M_bind. simpl.
  destruct (read_image w n image_path) as [image_data|e] eqn:Hread; simpl; [|done].
  intros H. exists image_data.
  destruct USE_NEW_VISION_API eqn:Hflag.
  - destruct (analyze w n image_data) as [r|e] eqn:Hr; simpl in H; [|done].
    exists (Unified r). simpl. by inversion H.
  - destruct (describe_image_in_stream w n image_data) as [d|e] eqn:Hd; simpl in H; [|done].
    destruct (tag_image_in_stream w n image_data) as [t|e] eqn:Ht; simpl in H; [|done].
    destruct (detect_objects_in_stream w n image_data) as [o|e] eqn:Ho; simpl in H; [|done].
    destruct d as [[d|]], t as [[t|]], o as [[o|]]; simpl in H; try done.
    exists (Legacy d t o). simpl. by inversion H.
Qed.

End Adapter.

(** ** The description generator *)

Section Generator.

Variable w : world.

Lemma map_result_entries {X} (entry : X → pyval) (g : X → pyval) k (l : list X) :
  (∀ x, getitem (entry x) k = Returns (g x)) →
  map_result (λ item, getitem item k) (map entry l) = Returns (map g l).
Proof.
  intros H. induction l as [|x l IH]; [reflexivity|].
  simpl. rewrite H. simpl. rewrite IH. reflexivity.
Qed.

(** The prompt can always be built from what [analyze_image] returns. *)
Lemma prompt_fields_organize (u : upstream) :
  ∃ prompt, prompt_fields (organize u) = Returns prompt.
Proof.
  destruct u as [r|d t o]; cbn [organize];
    [|rewrite organize_legacy_unified; generalize (unified_of_legacy d t o); intros r].
  all: unfold prompt_fields, pluck, organize_unified; simpl.
  all: rewrite (map_result_entries caption_entry (λ c, PStr (Caption.text c)))
         by reflexivity; simpl.
  all: rewrite (map_result_entries tag_entry (λ c, PStr (Tag.name c)))
         by reflexivity; simpl.
  all: rewrite (map_result_entries object_entry (λ c, PStr (DetectedObject.name c)))
         by reflexivity; simpl.
  all: eauto.
Qed.

Lemma quiet_generate_text self n analysis_result :
  quiet (generate_text w self n analysis_result).
Proof.
  unfold generate_text.
  apply quiet_bind; [auto with quiet|intros _].
  apply quiet_bind; [auto with quiet|intros prompt].
  apply quiet_bind; [auto with quiet|intros deployment_name].
  apply quiet_try_except; [|intros e; quiet_tac].
  apply quiet_bind; [auto with quiet|intros [|[c|] ?]]; auto with quiet.
Qed.

(** Once the prompt is built and the deployment name read, [generate_text]
    returns, whatever the completion call does. *)
Lemma generate_text_Ok self n analysis_result s prompt deployment_name :
  prompt_fields analysis_result = Returns prompt →
  deployment_name_of self = Returns deployment_name →
  ∃ s', generate_text w self n analysis_result s
        = (Ok (generated (chat_completions_create w n deployment_name prompt)), s')
        ∧ fs s' = fs s ∧ calls s' = calls s.
Proof.
  intros Hp Hd. unfold generate_text, mbind, M_bind, try_except. simpl.
  rewrite Hp. simpl. rewrite Hd. simpl.
  destruct (chat_completions_create w n deployment_name prompt) as [[|[c|] ?]|e];
    simpl; eauto.
Qed.

End Generator.

(** ** The orchestrator *)

Section Orchestrator.

Variable USE_NEW_VISION_API : bool.
Variable w : world.
Variable self : integrator.

Lemma save_result_IoOk n result image_path s :
  save_io w n = IoOk →
  ∃ s', _save_result w n result image_path s = (Ok tt, s')
        ∧ fs s' = <[output_path_of image_path (time_time w n)
                     := Document save_format result]> (fs s)
        ∧ calls s' = calls s.
Proof.
  intros Hio. unfold _save_result, mbind, M_bind, open_w, json_dump.
  rewrite Hio. simpl. eexists. split; [reflexivity|].
  split; [|reflexivity]. apply insert_insert_eq.
Qed.

Lemma save_result_OpenRaises n result image_path s e :
  save_io w n = OpenRaises e →
  _save_result w n result image_path s = (Raise e, s).
Proof.
  intros Hio. unfold _save_result, mbind, M_bind, open_w, json_dump.
  rewrite Hio. reflexivity.
Qed.

Lemma save_result_DumpRaises n result image_path s e :
  save_io w n = DumpRaises e →
  ∃ s', _save_result w n result image_path s = (Raise e, s')
        ∧ fs s' = <[output_path_of image_path (time_time w n) := empty_file]> (fs s)
        ∧ calls s' = calls s.
Proof.
  intros Hio. unfold _save_result, mbind, M_bind, open_w, json_dump.
  rewrite Hio. simpl. eauto.
Qed.

Lemma save_result_no_exit n result image_path s c :
  (_save_result w n result image_path s).1 ≠ Exit c.
Proof.
  destruct (save_io w n) as [|e|e] eqn:Hio.
  - destruct (save_result_IoOk n result image_path s Hio) as (s' & -> & _). done.
  - rewrite (save_result_OpenRaises n result image_path s e Hio). done.
  - destruct (save_result_DumpRaises n result image_path s e Hio) as (s' & -> & _). done.
Qed.

Lemma save_result_calls n result image_path s :
  calls (_save_result w n result image_path s).2 = calls s.
Proof.
  destruct (save_io w n) as [|e|e] eqn:Hio.
  - destruct (save_result_IoOk n result image_path s Hio) as (s' & -> & _ & ?). done.
  - rewrite (save_result_OpenRaises n result image_path s e Hio). done.
  - destruct (save_result_DumpRaises n result image_path s e Hio) as (s' & -> & _ & ?). done.
Qed.

Lemma enter_run image_path s :
  enter image_path s = (Ok (length (calls s)), entered image_path s).
Proof. reflexivity. Qed.

(** [process_image], one stage at a time. *)
Lemma process_image_unfold image_path s :
  process_image USE_NEW_VISION_API w self image_path s =
  let n := length (calls s) in
  let handler e s' :=
    (Ok (error_record (now_isoformat_except w n) image_path (exn_str e)),
     (print ("Erro ao processar a imagem " ++ image_path ++ ": " ++ exn_str e) s').2) in
  match analyze_image USE_NEW_VISION_API w n image_path (entered image_path s) with
  | (Ok analysis_result, s1) =>
      match generate_text w self n analysis_result s1 with
      | (Ok generated_text, s2) =>
          let result := success_record (now_isoformat w n) image_path
                          analysis_result generated_text in
          match _save_result w n result image_path s2 with
          | (Ok _, s3) => (Ok result, s3)
          | (Raise e, s3) => handler e s3
          | (Exit c, s3) => (Exit c, s3)
          end
      | (Raise e, s2) => handler e s2
      | (Exit c, s2) => (Exit c, s2)
      end
  | (Raise e, s1) => handler e s1
  | (Exit c, s1) => (Exit c, s1)
  end.
Proof.
  unfold process_image.
  rewrite (bind_Ok _ _ _ _ _ (enter_run image_path s)).
  unfold try_except, mbind, M_bind.
  destruct (analyze_image _ _ _ _ _) as [[a|e|c] s1]; try reflexivity.
  destruct (generate_text _ _ _ _ _) as [[g|e|c] s2]; try reflexivity.
  destruct (_save_result _ _ _ _ _) as [[[]|e|c] s3]; reflexivity.
Qed.

(** The [except] branch never fails: [process_image] always returns one of
    the two variants, and records exactly one call. *)
Lemma process_image_returns image_path s :
  ∃ r s',
    process_image USE_NEW_VISION_API w self image_path s = (Ok r, s')
    ∧ calls s' = (calls s ++ [image_path])%list
    ∧ field "image_path" r = Some (PStr image_path)
    ∧ (∃ t, field "timestamp" r = Some (PStr t))
    ∧ (keys r = success_keys ∨ keys r = error_keys).
Proof.
  rewrite process_image_unfold. cbv zeta.
  pose proof (quiet_analyze_image USE_NEW_VISION_API w (length (calls s)) image_path
                (entered image_path s)) as (_ & Hc1 & Hx1).
  destruct (analyze_image _ _ _ _ _) as [[a|e|c] s1]; simpl in Hc1, Hx1;
    [|by eauto 10|by destruct (Hx1 c)].
  pose proof (quiet_generate_text w self (length (calls s)) a s1) as (_ & Hc2 & Hx2).
  destruct (generate_text _ _ _ _ _) as [[g|e|c] s2]; simpl in Hc2, Hx2;
    [|rewrite <- Hc1, <- Hc2; by eauto 10|by destruct (Hx2 c)].
  pose proof (save_result_calls (length (calls s))
                (success_record (now_isoformat w (length (calls s))) image_path a g)
                image_path s2) as Hc3.
  pose proof (save_result_no_exit (length (calls s))
                (success_record (now_isoformat w (length (calls s))) image_path a g)
                image_path s2) as Hx3.
  destruct (_save_result _ _ _ _ _) as [[[]|e|c] s3]; simpl in Hc3, Hx3;
    [| |by destruct (Hx3 c)].
  - exists (success_record (now_isoformat w (length (calls s))) image_path a g), s3.
    rewrite Hc3, Hc2, Hc1. simpl. eauto 10.
  - eexists _, _. split; [reflexivity|]. simpl. rewrite Hc3, Hc2, Hc1. eauto 10.
Qed.

Lemma process_image_analysis_raises image_path s e s1 :
  analyze_image USE_NEW_VISION_API w (length (calls s)) image_path
    (entered image_path s) = (Raise e, s1) →
  ∃ s', process_image USE_NEW_VISION_API w self image_path s
        = (Ok (error_record (now_isoformat_except w (length (calls s)))
                 image_path (exn_str e)), s')
        ∧ fs s' = fs s.
Proof.
  intros Ha. rewrite process_image_unfold. cbv zeta. rewrite Ha.
  eexists. split; [reflexivity|]. simpl.
  pose proof (quiet_analyze_image USE_NEW_VISION_API w (length (calls s)) image_path
                (entered image_path s)) as (Hf & _).
  rewrite Ha in Hf. exact Hf.
Qed.

Lemma process_image_success image_path s image_data u deployment_name :
  let n := length (calls s) in
  read_image w n image_path = Returns image_data →
  vision_returns USE_NEW_VISION_API w n image_data u →
  deployment_name_of self = Returns deployment_name →
  save_io w n = IoOk →
  ∃ prompt s',
    prompt_fields (organize u) = Returns prompt
    ∧ let result :=
        success_record (now_isoformat w n) image_path (organize u)
          (generated (chat_completions_create w n deployment_name prompt)) in
      process_image USE_NEW_VISION_API w self image_path s = (Ok result, s')
      ∧ fs s' = <[output_path_of image_path (time_time w n)
                   := Document save_format result]> (fs s).
Proof.
  intros n Hread Hu Hd Hio.
  destruct (prompt_fields_organize u) as [prompt Hp]. exists prompt.
  destruct (analyze_image_Ok USE_NEW_VISION_API w n image_path (entered image_path s)
              image_data u Hread Hu) as (s1 & Ha & Hf1 & _).
  destruct (generate_text_Ok w self n (organize u) s1 prompt deployment_name Hp Hd)
    as (s2 & Hg & Hf2 & _).
  destruct (save_result_IoOk n
              (success_record (now_isoformat w n) image_path (organize u)
                 (generated (chat_completions_create w n deployment_name prompt)))
              image_path s2 Hio) as (s3 & Hs & Hf3 & _).
  exists s3. split; [exact Hp|]. cbv zeta.
  rewrite process_image_unfold. cbv zeta. fold n. rewrite Ha, Hg, Hs.
  split; [reflexivity|]. rewrite Hf3, Hf2, Hf1. reflexivity.
Qed.

End Orchestrator.

(** ** Failure of the vision analysis *)

(** C1, as stated, at the cat image with the vision service down: the
    analysis raises, and no record that has an [error] key is written;
    in fact nothing is written. *)
Lemma vision_failure_writes_no_record :
  (analyze_image true world_vision_down 0 "input/cat.jpg"
     (entered "input/cat.jpg" initial)).1 = Raise service_down
  ∧ ¬ wrote_record (λ doc, "error" ∈ keys doc) initial
        (process_image true world_vision_down configured "input/cat.jpg" initial).2.
Proof.
  split; [reflexivity|].
  destruct (process_image_analysis_raises true world_vision_down configured
              "input/cat.jpg" initial service_down
              (analyze_image true world_vision_down 0 "input/cat.jpg"
                 (entered "input/cat.jpg" initial)).2 eq_refl) as (s' & Hrun & Hfs).
  rewrite Hrun. simpl. intros (path & fmt & doc & Hwritten & _).
  rewrite Hfs in Hwritten. simpl in Hwritten.
  by rewrite lookup_empty in Hwritten.
Qed.

(** C1, amended: when the analysis of an image raises, [process_image]
    catches the exception and returns the error variant, whose keys are
    [timestamp], [image_path] and [error] (no [analysis], no
    [generated_text]) and whose [error] is the exception's message; no
    file is written or changed; and the loop of [process_all_images] goes
    on with the images that are left. *)
Theorem vision_failure_error_record
    (USE_NEW_VISION_API : bool) (w : world) (self : integrator)
    (image_path : string) (s : state) (e : exn) (s1 : state) :
  analyze_image USE_NEW_VISION_API w (length (calls s)) image_path
    (entered image_path s) = (Raise e, s1) →
  ∃ r s',
    process_image USE_NEW_VISION_API w self image_path s = (Ok r, s')
    ∧ keys r = error_keys
    ∧ field "error" r = Some (PStr (exn_str e))
    ∧ field "image_path" r = Some (PStr image_path)
    ∧ fs s' = fs s
    ∧ ∀ input_dir image_file rest s0,
        image_path = PyStr.join input_dir image_file →
        s = (print (nl ++ "Processando: " ++ image_file) s0).2 →
        process_each USE_NEW_VISION_API w self input_dir (image_file :: rest) s0
        = process_each USE_NEW_VISION_API w self input_dir rest s'.
Proof.
  intros Ha.
  destruct (process_image_analysis_raises USE_NEW_VISION_API w self image_path s e s1 Ha)
    as (s' & Hrun & Hfs).
  eexists _, s'. split; [exact Hrun|]. repeat split; [exact Hfs|].
  intros input_dir image_file rest s0 -> ->.
  cbn [process_each]. unfold mbind at 1, M_bind at 1. cbn [print].
  unfold mbind at 1, M_bind at 1.
  cbn [print snd] in Hrun. rewrite Hrun. reflexivity.
Qed.

Lemma vision_failure_error_record_witness :
  ∃ r s',
    process_image true world_vision_down configured "input/cat.jpg"
      (print (nl ++ "Processando: " ++ "cat.jpg") initial).2 = (Ok r, s')
    ∧ field "error" r = Some (PStr "Connection error.")
    ∧ fs s' = ∅
    ∧ process_each true world_vision_down configured "input" ["cat.jpg"; "dog.png"] initial
      = process_each true world_vision_down configured "input" ["dog.png"] s'.
Proof.
  destruct (vision_failure_error_record true world_vision_down configured
              "input/cat.jpg" (print (nl ++ "Processando: " ++ "cat.jpg") initial).2
              service_down
              (analyze_image true world_vision_down 0 "input/cat.jpg"
                 (entered "input/cat.jpg"
                    (print (nl ++ "Processando: " ++ "cat.jpg") initial).2)).2
              eq_refl)
    as (r & s' & Hrun & _ & Herr & _ & Hfs & Hloop).
  exists r, s'. split; [exact Hrun|]. split; [exact Herr|]. split; [exact Hfs|].
  exact (Hloop "input" "cat.jpg" ["dog.png"] initial eq_refl eq_refl).
Defined.

(** ** What a successful record holds *)

Section Documents.

Lemma unit_float_finite f : unit_float f → json_valid (PFloat f) = true.
Proof. by destruct f. Qed.

Lemma confidence_values_captions (l : list Caption.t) :
  flat_map confidence_values (map caption_entry l)
  = map (λ c, PFloat (Caption.confidence c)) l.
Proof. induction l as [|c l IH]; [reflexivity|]. simpl. by rewrite IH. Qed.

Lemma confidence_values_tags (l : list Tag.t) :
  flat_map confidence_values (map tag_entry l)
  = map (λ c, PFloat (Tag.confidence c)) l.
Proof. induction l as [|c l IH]; [reflexivity|]. simpl. by rewrite IH. Qed.

Lemma confidence_values_objects (l : list DetectedObject.t) :
  flat_map confidence_values (map object_entry l)
  = map (λ c, PFloat (DetectedObject.confidence c)) l.
Proof. induction l as [|c l IH]; [reflexivity|]. simpl. by rewrite IH. Qed.

Lemma json_valid_entries {X} (entry : X → pyval) (conf : X → pyfloat) (l : list X) :
  (∀ x, unit_float (conf x) → json_valid (entry x) = true) →
  Forall (λ x, unit_float (conf x)) l →
  forallb json_valid (map entry l) = true.
Proof.
  intros Hentry Hl. induction Hl as [|x l Hx _ IH]; [reflexivity|].
  simpl. by rewrite Hentry, IH.
Qed.

Lemma confidences_unified_of_legacy d t o :
  upstream_confidences_in_unit (Legacy d t o) →
  upstream_confidences_in_unit (Unified (unified_of_legacy d t o)).
Proof.
  intros (Hd & Ht & Ho). simpl. repeat split; try done.
  - intros c Hc. destruct d as [|c' l]; [done|].
    simpl in Hc. injection Hc as <-. by inversion Hd.
  - rewrite Forall_map. exact Ho.
Qed.

Lemma json_valid_organize_unified r :
  upstream_confidences_in_unit (Unified r) → json_valid (organize_unified r) = true.
Proof.
  intros (Hc & Hd & Ht & Ho). unfold organize_unified. cbn [json_valid forallb snd].
  rewrite (json_valid_entries caption_entry Caption.confidence); [|
    intros x Hx; pose proof (unit_float_finite _ Hx) as E; simpl in *; by rewrite E | done].
  rewrite (json_valid_entries tag_entry Tag.confidence); [|
    intros x Hx; pose proof (unit_float_finite _ Hx) as E; simpl in *; by rewrite E | done].
  rewrite (json_valid_entries object_entry DetectedObject.confidence); [|
    intros x Hx; pose proof (unit_float_finite _ Hx) as E; simpl in *; by rewrite E | done].
  destruct (ImageAnalysisResult.caption r) as [c|]; [|reflexivity].
  pose proof (unit_float_finite _ (Hc c eq_refl)) as E. simpl in *. by rewrite E.
Qed.

Lemma confidences_organize_unified r :
  upstream_confidences_in_unit (Unified r) →
  Forall in_unit (confidence_values (organize_unified r)).
Proof.
  intros (Hc & Hd & Ht & Ho). unfold organize_unified.
  cbn [confidence_values flat_map fst snd String.eqb Ascii.eqb Bool.eqb].
  rewrite confidence_values_captions, confidence_values_tags, confidence_values_objects.
  rewrite !app_nil_r.
  assert (Forall in_unit
            (map (λ c, PFloat (Caption.confidence c))
               (or_empty (ImageAnalysisResult.dense_captions r)) ++
             map (λ c, PFloat (Tag.confidence c))
               (or_empty (ImageAnalysisResult.tags r)) ++
             map (λ c, PFloat (DetectedObject.confidence c))
               (or_empty (ImageAnalysisResult.objects r)))) as Hrest.
  { rewrite !Forall_app, !Forall_map. done. }
  destruct (ImageAnalysisResult.caption r) as [c|]; simpl.
  - apply Forall_cons. split; [by apply Hc|exact Hrest].
  - apply Forall_cons. split; [simpl; lia|exact Hrest].
Qed.

Lemma json_valid_organize u :
  upstream_confidences_in_unit u → json_valid (organize u) = true.
Proof.
  destruct u as [r|d t o]; cbn [organize]; [apply json_valid_organize_unified|].
  intros H. rewrite organize_legacy_unified.
  by apply json_valid_organize_unified, confidences_unified_of_legacy.
Qed.

Lemma confidences_organize u :
  upstream_confidences_in_unit u → Forall in_unit (confidence_values (organize u)).
Proof.
  destruct u as [r|d t o]; cbn [organize]; [apply confidences_organize_unified|].
  intros H. rewrite organize_legacy_unified.
  by apply confidences_organize_unified, confidences_unified_of_legacy.
Qed.

Lemma json_valid_generated r : json_valid (generated r) = true.
Proof. by destruct r as [[|[c|] ?]|e]. Qed.

End Documents.

(** ** Strings *)

Section Strings.

Lemma append_nil_r (s : string) : s ++ "" = s.
Proof.
  induction s as [|a s IH]; [reflexivity|].
  change (String a (s ++ "") = String a s). by rewrite IH.
Qed.

Lemma append_list (s t : string) :
  list_ascii_of_string (s ++ t)
  = (list_ascii_of_string s ++ list_ascii_of_string t)%list.
Proof.
  induction s as [|a s IH]; [reflexivity|].
  change (a :: list_ascii_of_string (s ++ t)
          = a :: (list_ascii_of_string s ++ list_ascii_of_string t)%list).
  by rewrite IH.
Qed.

Lemma list_ascii_of_string_inj (s t : string) :
  list_ascii_of_string s = list_ascii_of_string t → s = t.
Proof.
  intros H. rewrite <- (string_of_list_ascii_of_string s),
    <- (string_of_list_ascii_of_string t). by rewrite H.
Qed.

Lemma append_inv_tail (s1 s2 t : string) : s1 ++ t = s2 ++ t → s1 = s2.
Proof.
  intros H. apply list_ascii_of_string_inj.
  apply (f_equal list_ascii_of_string) in H. rewrite !append_list in H.
  by apply app_inv_tail in H.
Qed.

Lemma contains_placeholder (msg : string) : contains msg (placeholder_prefix ++ msg).
Proof. exists placeholder_prefix, "". by rewrite append_nil_r. Qed.

Lemma placeholder_nonempty (msg : string) : placeholder_prefix ++ msg ≠ "".
Proof. done. Qed.

End Strings.

(** ** Failure of the completion call only *)

(** C2: when the analysis succeeds and the completion call raises [e],
    [generate_text] itself returns the placeholder text, which is not
    empty and contains [str(e)]; with the record written as usual,
    [process_image] returns the success variant, whose [analysis] is the
    complete analysis and whose [generated_text] is the placeholder. *)
Theorem completion_failure_placeholder
    (USE_NEW_VISION_API : bool) (w : world) (self : integrator)
    (image_path : string) (s : state) (image_data : list Byte.byte)
    (u : upstream) (prompt deployment_name : pyval) (e : exn) :
  let n := length (calls s) in
  let text := placeholder_prefix ++ exn_str e in
  read_image w n image_path = Returns image_data →
  vision_returns USE_NEW_VISION_API w n image_data u →
  prompt_fields (organize u) = Returns prompt →
  deployment_name_of self = Returns deployment_name →
  chat_completions_create w n deployment_name prompt = Raises e →
  save_io w n = IoOk →
  (∀ s1, ∃ s2, generate_text w self n (organize u) s1 = (Ok (PStr text), s2))
  ∧ text ≠ "" ∧ contains (exn_str e) text
  ∧ ∃ r s',
      process_image USE_NEW_VISION_API w self image_path s = (Ok r, s')
      ∧ keys r = success_keys
      ∧ field "analysis" r = Some (organize u)
      ∧ conforms AnalysisResult (organize u) = true
      ∧ field "generated_text" r = Some (PStr text).
Proof.
  intros n text Hread Hu Hp Hd Hchat Hio. repeat split.
  - intros s1.
    destruct (generate_text_Ok w self n (organize u) s1 prompt deployment_name Hp Hd)
      as (s2 & Hg & _).
    rewrite Hchat in Hg. eauto.
  - apply placeholder_nonempty.
  - apply contains_placeholder.
  - destruct (process_image_success USE_NEW_VISION_API w self image_path s image_data u
                deployment_name Hread Hu Hd Hio) as (prompt' & s' & Hp' & Hrun & _).
    fold n in Hp', Hrun. rewrite Hp in Hp'. injection Hp' as <-.
    rewrite Hchat in Hrun. eexists _, s'. split; [exact Hrun|].
    repeat split. apply conforms_organize.
Qed.

Lemma completion_failure_placeholder_witness :
  ∃ r s',
    process_image true world_chat_down configured "input/cat.jpg" initial = (Ok r, s')
    ∧ keys r = success_keys
    ∧ field "generated_text" r
      = Some (PStr "Não foi possível gerar uma descrição. Erro: Connection error.").
Proof.
  destruct (completion_failure_placeholder true world_chat_down configured "input/cat.jpg"
              initial [] (Unified cat_result)
              (PList [PStr "a cat sitting on a chair"; PFloat (Finite (92 # 100));
                      PList [];
                      PList [PStr "cat"; PStr "chair"; PStr "indoor"];
                      PList [PStr "cat"]])
              (PStr "gpt-4o") service_down
              eq_refl (conj eq_refl eq_refl) eq_refl eq_refl eq_refl eq_refl)
    as (_ & _ & _ & r & s' & Hrun & Hkeys & _ & _ & Htext).
  exists r, s'. split; [exact Hrun|]. split; [exact Hkeys|exact Htext].
Defined.

(** ** A successful image *)

(** C4: when the image is read, the vision calls and the completion step
    return and the record is written, the file at the output path holds
    the returned record; its keys are [timestamp], [image_path],
    [analysis] and [generated_text]; its text is valid JSON; and
    [analysis] has the five AnalysisResult fields with every confidence
    in [[0, 1]] -- provided every confidence the vision service sent lies
    in [[0, 1]]. *)
Theorem successful_record_is_valid
    (USE_NEW_VISION_API : bool) (w : world) (self : integrator)
    (image_path : string) (s : state) (image_data : list Byte.byte)
    (u : upstream) (deployment_name : pyval) :
  let n := length (calls s) in
  read_image w n image_path = Returns image_data →
  vision_returns USE_NEW_VISION_API w n image_data u →
  upstream_confidences_in_unit u →
  deployment_name_of self = Returns deployment_name →
  save_io w n = IoOk →
  ∃ r s',
    process_image USE_NEW_VISION_API w self image_path s = (Ok r, s')
    ∧ fs s' !! output_path_of image_path (time_time w n) = Some (Document save_format r)
    ∧ keys r = ["timestamp"; "image_path"; "analysis"; "generated_text"]
    ∧ json_valid r = true
    ∧ ∃ a,
        field "analysis" r = Some a
        ∧ keys a = ["caption"; "confidence"; "dense_captions"; "tags"; "objects"]
        ∧ conforms AnalysisResult a = true
        ∧ Forall in_unit (confidence_values a).
Proof.
  intros n Hread Hu Hunit Hd Hio.
  destruct (process_image_success USE_NEW_VISION_API w self image_path s image_data u
              deployment_name Hread Hu Hd Hio) as (prompt & s' & _ & Hrun & Hfs).
  fold n in Hrun, Hfs. eexists _, s'. split; [exact Hrun|].
  split; [rewrite Hfs; apply lookup_insert_eq|].
  split; [reflexivity|]. split.
  - unfold success_record. cbn [json_valid forallb snd].
    by rewrite json_valid_organize, json_valid_generated.
  - exists (organize u). split; [reflexivity|].
    split; [apply keys_organize|]. split; [apply conforms_organize|].
    by apply confidences_organize.
Qed.

Lemma cat_confidences_in_unit : upstream_confidences_in_unit (Unified cat_result).
Proof.
  assert (∀ p q : positive, (p <= q)%positive → unit_float (Finite (Zpos p # q))) as Hpq.
  { intros p q Hle. split; unfold Qle; simpl; lia. }
  repeat split.
  - intros c [= <-]. by apply Hpq.
  - apply Forall_nil_2.
  - repeat (apply Forall_cons; split; [by apply Hpq|]). apply Forall_nil_2.
  - repeat (apply Forall_cons; split; [by apply Hpq|]). apply Forall_nil_2.
Defined.

Lemma successful_record_is_valid_witness :
  ∃ r s',
    process_image true world_ok configured "input/cat.jpg" initial = (Ok r, s')
    ∧ fs s' !! "output/cat_1704067200.json" = Some (Document save_format r)
    ∧ json_valid r = true
    ∧ field "generated_text" r = Some (PStr four_part_description).
Proof.
  destruct (successful_record_is_valid true world_ok configured "input/cat.jpg" initial
              [] (Unified cat_result) (PStr "gpt-4o")
              eq_refl (conj eq_refl eq_refl) cat_confidences_in_unit eq_refl eq_refl)
    as (r & s' & Hrun & Hfile & _ & Hvalid & _).
  exists r, s'. split; [exact Hrun|]. split; [exact Hfile|]. split; [exact Hvalid|].
  vm_compute in Hrun. injection Hrun as <- _. reflexivity.
Defined.

(** ** [process_image] never raises *)

(** C9: whatever the image path and whatever the reads, the service
    calls and the file write do, [process_image] returns (no exception
    leaves it) a dict that has the keys [timestamp] and [image_path] and
    is either the success variant or the error variant. *)
Theorem process_image_never_raises
    (USE_NEW_VISION_API : bool) (w : world) (self : integrator)
    (image_path : string) (s : state) :
  ∃ r s',
    process_image USE_NEW_VISION_API w self image_path s = (Ok r, s')
    ∧ "timestamp" ∈ keys r
    ∧ "image_path" ∈ keys r
    ∧ (keys r = ["timestamp"; "image_path"; "analysis"; "generated_text"]
       ∨ keys r = ["timestamp"; "image_path"; "error"]).
Proof.
  destruct (process_image_returns USE_NEW_VISION_API w self image_path s)
    as (r & s' & Hrun & _ & _ & _ & Hkeys).
  exists r, s'. split; [exact Hrun|].
  destruct Hkeys as [Hk|Hk]; rewrite Hk; unfold success_keys, error_keys;
    (split; [set_solver|]); (split; [set_solver|]); auto.
Qed.

(** ** The legacy branch and a missing list *)

Section LegacyNone.

(** Under the legacy strategy the three comprehensions iterate the SDK
    attributes unguarded: when the calls return and one of [captions],
    [tags], [objects] is [None], [analyze_image] raises [TypeError] and
    builds no analysis. *)
Lemma analyze_image_legacy_missing (w : world) n image_path s image_data d t o :
  read_image w n image_path = Returns image_data →
  describe_image_in_stream w n image_data = Returns d →
  tag_image_in_stream w n image_data = Returns t →
  detect_objects_in_stream w n image_data = Returns o →
  ImageDescription.captions d = None
  ∨ TagResult.tags t = None
  ∨ DetectResult.objects o = None →
  ∃ s', analyze_image false w n image_path s
        = (Raise (Exn TypeError "'NoneType' object is not iterable"), s').
Proof.
  intros Hread Hd Ht Ho Hnone. unfold analyze_image, mbind, M_bind. simpl.
  rewrite Hread. simpl. rewrite Hd. simpl. rewrite Ht. simpl. rewrite Ho. simpl.
  unfold organize_legacy.
  destruct d as [[d|]], t as [[t|]], o as [[o|]]; simpl in *;
    try (by eexists); by destruct Hnone as [?|[?|?]].
Qed.

(** With the three lists present the legacy branch builds its dict, and
    that dict is the unified one of the renamed answer. *)
Lemma organize_legacy_present d t o :
  organize_legacy (ImageDescription.Make (Some d)) (TagResult.Make (Some t))
    (DetectResult.Make (Some o))
  = Returns (organize_unified (unified_of_legacy d t o)).
Proof.
  rewrite <- organize_legacy_unified. unfold organize_legacy, legacy_dict. simpl.
  by destruct d.
Qed.

End LegacyNone.

(** C5, at a legacy answer whose detect-objects result has no [objects]
    list: the legacy branch of [analyze_image] raises [TypeError] and
    yields no record of any shape, while the unified branch, given the
    answer without objects, yields a record of the normalized shape with
    [objects] empty. *)
Theorem legacy_missing_objects_yield_no_record :
  (∃ s',
     analyze_image false
       (legacy_scenario cat_description cat_tags (DetectResult.Make None))
       0 "input/cat.jpg" initial
     = (Raise (Exn TypeError "'NoneType' object is not iterable"), s'))
  ∧ (∃ a s',
       analyze_image true
         (scenario ["cat.jpg"] (Returns cat_result_without_objects)
            (Returns [Some four_part_description]) (17040672002 # 10) IoOk IoOk)
         0 "input/cat.jpg" initial = (Ok a, s')
       ∧ conforms AnalysisResult a = true
       ∧ field "objects" a = Some (PList [])).
Proof.
  split.
  - apply (analyze_image_legacy_missing _ _ _ _ [] cat_description cat_tags
             (DetectResult.Make None)); try reflexivity. by right; right.
  - eexists _, _. split; [vm_compute; reflexivity|]. by split.
Qed.

(** C8, at a legacy answer whose tag result has no [tags] list: the
    service returned nothing for the tags, and the legacy branch of
    [analyze_image] raises [TypeError] instead of defaulting [tags] to
    the empty list, so that [process_image] returns the error variant;
    the unified branch, given the answer without tags, returns the
    analysis with [tags] empty. *)
Theorem legacy_missing_tags_are_not_defaulted :
  (∃ s',
     analyze_image false
       (legacy_scenario cat_description (TagResult.Make None) cat_objects)
       0 "input/cat.jpg" initial
     = (Raise (Exn TypeError "'NoneType' object is not iterable"), s'))
  ∧ (∃ s',
       process_image false
         (legacy_scenario cat_description (TagResult.Make None) cat_objects)
         configured "input/cat.jpg" initial
       = (Ok (error_record "2024-01-01T12:00:00.500000" "input/cat.jpg"
                "'NoneType' object is not iterable"), s'))
  ∧ (∃ a s',
       analyze_image true
         (scenario ["cat.jpg"] (Returns cat_result_without_tags)
            (Returns [Some four_part_description]) (17040672002 # 10) IoOk IoOk)
         0 "input/cat.jpg" initial = (Ok a, s')
       ∧ field "tags" a = Some (PList [])).
Proof.
  split; [|split].
  - apply (analyze_image_legacy_missing _ _ _ _ [] cat_description
             (TagResult.Make None) cat_objects); try reflexivity. by right; left.
  - destruct (analyze_image_legacy_missing
                (legacy_scenario cat_description (TagResult.Make None) cat_objects)
                0 "input/cat.jpg" (entered "input/cat.jpg" initial) []
                cat_description (TagResult.Make None) cat_objects
                eq_refl eq_refl eq_refl eq_refl (or_intror (or_introl eq_refl)))
      as (s1 & Ha).
    destruct (process_image_analysis_raises false _ configured "input/cat.jpg" initial
                _ s1 Ha) as (s' & Hrun & _).
    exists s'. exact Hrun.
  - eexists _, _. split; [vm_compute; reflexivity|]. reflexivity.
Qed.

(** ** The directory run *)

Section DirectoryRun.

Variable USE_NEW_VISION_API : bool.
Variable w : world.
Variable self : integrator.

(** The loop calls [process_image] once per file, in order, and ends. *)
Lemma process_each_calls input_dir (image_files : list string) s :
  ∃ s',
    process_each USE_NEW_VISION_API w self input_dir image_files s = (Ok tt, s')
    ∧ calls s' = (calls s ++ map (PyStr.join input_dir) image_files)%list.
Proof.
  revert s. induction image_files as [|image_file rest IH]; intros s.
  - exists s. split; [reflexivity|]. simpl. by rewrite app_nil_r.
  - cbn [process_each]. unfold mbind at 1, M_bind at 1. cbn [print].
    destruct (process_image_returns USE_NEW_VISION_API w self
                (PyStr.join input_dir image_file)
                {| fs := fs s;
                   stdout := stdout s ++ [nl ++ "Processando: " ++ image_file];
                   calls := calls s |})
      as (r & s1 & Hrun & Hcalls & _).
    unfold mbind at 1, M_bind at 1. rewrite Hrun.
    destruct (IH s1) as (s' & Hrest & Hcalls').
    exists s'. split; [exact Hrest|].
    rewrite Hcalls', Hcalls. simpl. by rewrite <- app_assoc.
Qed.

End DirectoryRun.

(** C7: [process_all_images] lists the directory [input]; the files it
    selects are those of the listing, in its order, whose
    [os.path.splitext] extension, after lower-casing the name, is one of
    [.jpg], [.jpeg], [.png], [.bmp], [.gif] (so names that differ only in
    case are selected alike); it calls [process_image] on
    [input/<file>] for each of them, in that order, and returns; and when
    none is selected it prints that no image was found, returns without
    error, calls nothing and leaves the files as they were. *)
Theorem process_all_images_selects_and_runs
    (USE_NEW_VISION_API : bool) (w : world) (self : integrator)
    (s : state) (files : list string) :
  listdir w "input" = Returns files →
  let image_files := filter is_image_file files in
  (∀ f, f ∈ image_files
        ↔ f ∈ files ∧ snd (PyStr.splitext (PyStr.lower f))
                        ∈ [".jpg"; ".jpeg"; ".png"; ".bmp"; ".gif"])
  ∧ (∀ f g, PyStr.lower f = PyStr.lower g → is_image_file f ↔ is_image_file g)
  ∧ ∃ s',
      process_all_images USE_NEW_VISION_API w self s = (Ok tt, s')
      ∧ calls s' = (calls s ++ map (PyStr.join "input") image_files)%list
      ∧ (image_files = [] →
           fs s' = fs s
           ∧ stdout s' = (stdout s ++ ["Nenhuma imagem encontrada na pasta 'input'."])%list).
Proof.
  intros Hlist image_files. split; [|split].
  - intros f. unfold image_files. rewrite list_elem_of_filter. unfold is_image_file.
    tauto.
  - intros f g Hfg. unfold is_image_file. by rewrite Hfg.
  - unfold process_all_images. rewrite Hlist.
    unfold mbind at 1, M_bind at 1. cbn [lift mret M_ret].
    fold image_files. destruct image_files as [|f0 rest] eqn:Himages.
    + eexists. split; [reflexivity|]. simpl. rewrite app_nil_r. done.
    + unfold mbind at 1, M_bind at 1. cbn [print].
      destruct (process_each_calls USE_NEW_VISION_API w self "input" (f0 :: rest)
                  {| fs := fs s;
                     stdout := stdout s ++
                       ["Encontradas " ++ pretty (length (f0 :: rest))
                        ++ " imagens para processar."];
                     calls := calls s |})
        as (s1 & Hloop & Hcalls).
      unfold mbind at 1, M_bind at 1. rewrite Hloop. cbn [print].
      eexists. split; [reflexivity|]. split; [exact Hcalls|]. done.
Qed.

Lemma process_all_images_selects_and_runs_witness :
  ∃ s',
    process_all_images true
      (scenario ["cat.jpg"; "notes.txt"; "DOG.PNG"; ".gif"; "b.Jpeg"]
         (Returns cat_result) (Returns [Some four_part_description])
         (17040672002 # 10) IoOk IoOk)
      configured initial = (Ok tt, s')
    ∧ calls s' = ["input/cat.jpg"; "input/DOG.PNG"; "input/b.Jpeg"].
Proof.
  destruct (process_all_images_selects_and_runs true
              (scenario ["cat.jpg"; "notes.txt"; "DOG.PNG"; ".gif"; "b.Jpeg"]
                 (Returns cat_result) (Returns [Some four_part_description])
                 (17040672002 # 10) IoOk IoOk)
              configured initial
              ["cat.jpg"; "notes.txt"; "DOG.PNG"; ".gif"; "b.Jpeg"] eq_refl)
    as (_ & _ & s' & Hrun & Hcalls & _).
  exists s'. split; [exact Hrun|exact Hcalls].
Defined.

(** With an empty [input] directory nothing is called and nothing is written. *)
Example empty_input_directory :
  ∃ s',
    process_all_images true
      (scenario [] (Returns cat_result) (Returns [Some four_part_description])
         (17040672002 # 10) IoOk IoOk)
      configured initial = (Ok tt, s')
    ∧ fs s' = ∅ ∧ calls s' = []
    ∧ stdout s' = ["Nenhuma imagem encontrada na pasta 'input'."].
Proof. eexists. split; [vm_compute; reflexivity|]. repeat split. Qed.

(** ** Output files *)

Section OutputFiles.

Lemma output_path_of_inj image_path (t1 t2 : Q) :
  output_path_of image_path t1 = output_path_of image_path t2 →
  int_of_float t1 = int_of_float t2.
Proof.
  unfold output_path_of. intros H.
  do 3 apply String.app_inj in H.
  apply append_inv_tail in H. by apply (inj pretty) in H.
Qed.

Lemma output_path_of_same_second image_path (t1 t2 : Q) :
  int_of_float t1 = int_of_float t2 →
  output_path_of image_path t1 = output_path_of image_path t2.
Proof. unfold output_path_of. by intros ->. Qed.

End OutputFiles.

(** ** Re-running on the same image *)

(** C6, as stated, at the cat image processed twice within the same
    second: both runs succeed, yet the second writes to the path of the
    first, so that afterwards there is one output file, holding the
    second record; the first record is gone. *)
Lemma rerun_in_same_second_overwrites :
  ∃ r1 s1 r2 s2,
    process_image true world_ok configured "input/cat.jpg" initial = (Ok r1, s1)
    ∧ process_image true world_same_second configured "input/cat.jpg" (restart s1)
      = (Ok r2, s2)
    ∧ keys r1 = success_keys ∧ keys r2 = success_keys
    ∧ r1 ≠ r2
    ∧ fs s1 = {[ "output/cat_1704067200.json" := Document save_format r1 ]}
    ∧ fs s2 = {[ "output/cat_1704067200.json" := Document save_format r2 ]}.
Proof.
  destruct (process_image_success true world_ok configured "input/cat.jpg" initial
              [] (Unified cat_result) (PStr "gpt-4o")
              eq_refl (conj eq_refl eq_refl) eq_refl eq_refl)
    as (p1 & s1 & Hp1 & Hrun1 & Hfs1).
  destruct (process_image_success true world_same_second configured "input/cat.jpg"
              (restart s1) [] (Unified cat_result) (PStr "gpt-4o")
              eq_refl (conj eq_refl eq_refl) eq_refl eq_refl)
    as (p2 & s2 & Hp2 & Hrun2 & Hfs2).
  eexists _, s1, _, s2. split; [exact Hrun1|]. split; [exact Hrun2|].
  split; [reflexivity|]. split; [reflexivity|]. split; [|split].
  - intros H. vm_compute in H. discriminate H.
  - rewrite Hfs1. apply insert_empty.
  - rewrite Hfs2. cbn [restart fs]. rewrite Hfs1.
    change (output_path_of "input/cat.jpg"
              (time_time world_same_second (length (calls (restart s1)))))
      with "output/cat_1704067200.json".
    change (output_path_of "input/cat.jpg" (time_time world_ok (length (calls initial))))
      with "output/cat_1704067200.json".
    rewrite insert_insert_eq. apply insert_empty.
Qed.

(** C6, amended: every successfully processed record is written to
    exactly one file, [output/<stem>_<t>.json], where [<stem>] is the
    image's base name without its extension and [<t>] the integer part of
    [time.time()], as UTF-8 with [ensure_ascii=False] and [indent=4], and
    no other file changes.  Re-running on the same image writes to a
    different path, next to the earlier file, exactly when the integer
    unix time differs; a re-run within the same second replaces the
    earlier file. *)
Theorem output_file_naming_and_reruns
    (USE_NEW_VISION_API : bool) (w1 w2 : world) (self : integrator)
    (image_path : string) (s0 : state)
    (image_data1 image_data2 : list Byte.byte) (u1 u2 : upstream)
    (deployment_name : pyval) :
  let n := length (calls s0) in
  let path1 := output_path_of image_path (time_time w1 n) in
  let path2 := output_path_of image_path (time_time w2 0) in
  read_image w1 n image_path = Returns image_data1 →
  vision_returns USE_NEW_VISION_API w1 n image_data1 u1 →
  save_io w1 n = IoOk →
  read_image w2 0%nat image_path = Returns image_data2 →
  vision_returns USE_NEW_VISION_API w2 0 image_data2 u2 →
  save_io w2 0%nat = IoOk →
  deployment_name_of self = Returns deployment_name →
  path1 = "output/" ++ fst (PyStr.splitext (PyStr.basename image_path)) ++ "_"
          ++ pretty (int_of_float (time_time w1 n)) ++ ".json"
  ∧ save_format = DumpFormat (Some "utf-8") false (Some 4%nat)
  ∧ ∃ r1 s1 r2 s2,
      process_image USE_NEW_VISION_API w1 self image_path s0 = (Ok r1, s1)
      ∧ fs s1 = <[path1 := Document save_format r1]> (fs s0)
      ∧ process_image USE_NEW_VISION_API w2 self image_path (restart s1) = (Ok r2, s2)
      ∧ fs s2 = <[path2 := Document save_format r2]> (fs s1)
      ∧ (int_of_float (time_time w1 n) ≠ int_of_float (time_time w2 0) →
           path1 ≠ path2
           ∧ fs s2 !! path1 = Some (Document save_format r1)
           ∧ fs s2 !! path2 = Some (Document save_format r2))
      ∧ (int_of_float (time_time w1 n) = int_of_float (time_time w2 0) →
           path1 = path2
           ∧ fs s2 = <[path1 := Document save_format r2]> (fs s0)).
Proof.
  intros n path1 path2 Hread1 Hu1 Hio1 Hread2 Hu2 Hio2 Hd.
  split; [reflexivity|]. split; [reflexivity|].
  destruct (process_image_success USE_NEW_VISION_API w1 self image_path s0
              image_data1 u1 deployment_name Hread1 Hu1 Hd Hio1)
    as (p1 & s1 & _ & Hrun1 & Hfs1).
  destruct (process_image_success USE_NEW_VISION_API w2 self image_path (restart s1)
              image_data2 u2 deployment_name Hread2 Hu2 Hd Hio2)
    as (p2 & s2 & _ & Hrun2 & Hfs2).
  fold n path1 in Hrun1, Hfs1. cbn [restart calls fs length] in Hrun2, Hfs2.
  fold path2 in Hfs2.
  eexists _, s1, _, s2. split; [exact Hrun1|]. split; [exact Hfs1|].
  split; [exact Hrun2|]. split; [exact Hfs2|]. split.
  - intros Hne.
    assert (path1 ≠ path2) as Hpaths.
    { intros Heq. by apply Hne, (output_path_of_inj image_path). }
    split; [exact Hpaths|]. rewrite Hfs2. split.
    + rewrite lookup_insert_ne by done. rewrite Hfs1. apply lookup_insert_eq.
    + apply lookup_insert_eq.
  - intros Heq.
    assert (path1 = path2) as Hpaths by by apply output_path_of_same_second.
    split; [exact Hpaths|]. rewrite Hfs2, Hfs1, <- Hpaths. apply insert_insert_eq.
Qed.

Lemma output_file_naming_and_reruns_witness :
  ∃ r1 s1 r2 s2,
    process_image true world_ok configured "input/cat.jpg" initial = (Ok r1, s1)
    ∧ process_image true world_next_minute configured "input/cat.jpg" (restart s1)
      = (Ok r2, s2)
    ∧ fs s2 !! "output/cat_1704067200.json" = Some (Document save_format r1)
    ∧ fs s2 !! "output/cat_1704067260.json" = Some (Document save_format r2).
Proof.
  destruct (output_file_naming_and_reruns true world_ok world_next_minute configured
              "input/cat.jpg" initial [] [] (Unified cat_result) (Unified cat_result)
              (PStr "gpt-4o")
              eq_refl (conj eq_refl eq_refl) eq_refl
              eq_refl (conj eq_refl eq_refl) eq_refl eq_refl)
    as (_ & _ & r1 & s1 & r2 & s2 & Hrun1 & _ & Hrun2 & _ & Hdiffer & _).
  exists r1, s1, r2, s2. split; [exact Hrun1|]. split; [exact Hrun2|].
  assert (int_of_float (time_time world_ok (length (calls initial)))
          ≠ int_of_float (time_time world_next_minute 0)) as Hne.
  { vm_compute. discriminate. }
  destruct (Hdiffer Hne) as (_ & H1 & H2). split; [exact H1|exact H2].
Defined.

(** ** What a failure leaves behind *)

(** C10, as stated, at the cat image with the disk full: the analysis
    and the generation return, [open] creates the output file, the write
    raises; [process_image] returns the error variant and the output file
    is there, where none was before. *)
Lemma write_failure_leaves_a_file :
  stage_raises true world_disk_full configured "input/cat.jpg" initial DumpOutput disk_full
  ∧ ∃ r s',
      process_image true world_disk_full configured "input/cat.jpg" initial = (Ok r, s')
      ∧ keys r = error_keys
      ∧ fs initial !! "output/cat_1704067200.json" = None
      ∧ fs s' !! "output/cat_1704067200.json" = Some empty_file
      ∧ fs s' ≠ fs initial.
Proof.
  split.
  - simpl. eexists _, _, _, _. split; [vm_compute; reflexivity|].
    split; [vm_compute; reflexivity|reflexivity].
  - eexists _, _. split; [vm_compute; reflexivity|].
    split; [reflexivity|]. split; [reflexivity|]. split; [reflexivity|].
    intros H. apply (f_equal (λ m, m !! "output/cat_1704067200.json")) in H.
    vm_compute in H. discriminate H.
Qed.

(** C10, amended: when the analysis or the text generation raises, or
    opening the output file fails, [process_image] returns the error
    variant with the exception's message and no file is created or
    changed: the error record exists only as the returned value.  When
    the write fails after the file was opened, [process_image] returns
    the error variant as well, and the output path holds the file [open]
    created, without a complete document. *)
Theorem failure_effect_on_files
    (USE_NEW_VISION_API : bool) (w : world) (self : integrator)
    (image_path : string) (s : state) (st : stage) (e : exn) :
  stage_raises USE_NEW_VISION_API w self image_path s st e →
  ∃ r s',
    process_image USE_NEW_VISION_API w self image_path s = (Ok r, s')
    ∧ keys r = error_keys
    ∧ field "error" r = Some (PStr (exn_str e))
    ∧ match st with
      | DumpOutput =>
          fs s' = <[output_path_of image_path (time_time w (length (calls s)))
                     := empty_file]> (fs s)
      | _ => fs s' = fs s
      end.
Proof.
  intros Hst. rewrite process_image_unfold. cbv zeta.
  pose proof (quiet_analyze_image USE_NEW_VISION_API w (length (calls s)) image_path
                (entered image_path s)) as (Hf1 & _).
  destruct st; simpl in Hst.
  - destruct Hst as (s1 & Ha). rewrite Ha in Hf1 |- *.
    eexists _, _. split; [reflexivity|]. by repeat split.
  - destruct Hst as (a & s1 & s2 & Ha & Hg). rewrite Ha in Hf1 |- *.
    pose proof (quiet_generate_text w self (length (calls s)) a s1) as (Hf2 & _).
    rewrite Hg in Hf2 |- *.
    eexists _, _. split; [reflexivity|]. repeat split. simpl in *. congruence.
  - destruct Hst as (a & s1 & g & s2 & Ha & Hg & Hio). rewrite Ha in Hf1 |- *.
    pose proof (quiet_generate_text w self (length (calls s)) a s1) as (Hf2 & _).
    rewrite Hg in Hf2 |- *.
    rewrite (save_result_OpenRaises w _ _ _ _ e Hio).
    eexists _, _. split; [reflexivity|]. repeat split. simpl in *. congruence.
  - destruct Hst as (a & s1 & g & s2 & Ha & Hg & Hio). rewrite Ha in Hf1 |- *.
    pose proof (quiet_generate_text w self (length (calls s)) a s1) as (Hf2 & _).
    rewrite Hg in Hf2 |- *.
    destruct (save_result_DumpRaises w (length (calls s))
                (success_record (now_isoformat w (length (calls s))) image_path a g)
                image_path s2 e Hio) as (s3 & Hs & Hf3 & _).
    rewrite Hs. eexists _, _. split; [reflexivity|]. repeat split.
    simpl in *. rewrite Hf3. congruence.
Qed.

Lemma failure_effect_on_files_witness :
  ∃ r s',
    process_image true world_vision_down configured "input/cat.jpg" initial = (Ok r, s')
    ∧ field "error" r = Some (PStr "Connection error.")
    ∧ fs s' = ∅.
Proof.
  assert (stage_raises true world_vision_down configured "input/cat.jpg" initial
            Analysis service_down) as Hst.
  { simpl. eexists. vm_compute. reflexivity. }
  destruct (failure_effect_on_files true world_vision_down configured "input/cat.jpg"
              initial Analysis service_down Hst) as (r & s' & Hrun & _ & Herr & Hfs).
  exists r, s'. split; [exact Hrun|]. split; [exact Herr|exact Hfs].
Defined.

(** ** A missing configuration file *)

Section MissingConfig.

Variable USE_NEW_VISION_API : bool.
Variable w : world.

Lemma load_config_absent config_path s :
  fs s !! config_path = None →
  ∃ r s',
    _load_config w config_path s = (r, s')
    ∧ (∀ v, r ≠ Ok v)
    ∧ calls s' = calls s
    ∧ match config_io w with
      | IoOk =>
          r = Exit 1
          ∧ fs s' = <[config_path := Document config_format example_config]> (fs s)
      | OpenRaises e => r = Raise e ∧ fs s' = fs s
      | DumpRaises e => r = Raise e ∧ fs s' = <[config_path := empty_file]> (fs s)
      end.
Proof.
  intros Habsent.
  unfold _load_config, try_except_cls, try_except, open_r_json_load.
  rewrite Habsent. cbn [exn_cls]. rewrite decide_True by reflexivity.
  unfold mbind, M_bind, open_w, json_dump, print, exit.
  destruct (config_io w) as [|e|e]; simpl.
  - eexists _, _. split; [reflexivity|]. repeat split; [done|].
    simpl. apply insert_insert_eq.
  - eexists _, _. split; [reflexivity|]. by repeat split.
  - eexists _, _. split; [reflexivity|]. by repeat split.
Qed.

Lemma main_absent_config args s :
  fs s !! arg_config args = None →
  ∃ r s',
    main USE_NEW_VISION_API w args s = (r, s')
    ∧ (∀ v, r ≠ Ok v)
    ∧ calls s' = calls s
    ∧ match config_io w with
      | IoOk =>
          r = Exit 1
          ∧ fs s' = <[arg_config args := Document config_format example_config]> (fs s)
      | OpenRaises e => r = Raise e ∧ fs s' = fs s
      | DumpRaises e => r = Raise e ∧ fs s' = <[arg_config args := empty_file]> (fs s)
      end.
Proof.
  intros Habsent.
  destruct (load_config_absent (arg_config args) s Habsent)
    as (r & s' & Hload & Hr & Hcalls & Hio).
  exists (match r with Ok _ => Ok tt | Raise e => Raise e | Exit c => Exit c end), s'.
  split; [|split; [|split; [exact Hcalls|]]].
  - unfold main, __init__, mbind, M_bind. rewrite Hload.
    destruct r as [v|e|c]; [by destruct (Hr v)|reflexivity|reflexivity].
  - destruct r as [v|e|c]; [by destruct (Hr v)|done|done].
  - destruct (config_io w) as [|e|e]; destruct Hio as [-> Hfs]; by split.
Qed.

End MissingConfig.

(** C3, as stated, on a first run without a configuration file: the
    template that is written has four placeholder endpoint/key fields
    (an endpoint and an API key for each of the two services), not three. *)
Lemma template_has_four_endpoint_key_fields :
  ∃ s' fmt doc,
    main true world_ok (Args "config.json" None) initial = (Exit 1, s')
    ∧ fs s' !! "config.json" = Some (Document fmt doc)
    ∧ endpoint_key_fields doc
      = [("vision", "endpoint",
           PStr "https://your-vision-service.cognitiveservices.azure.com/");
         ("vision", "api_key", PStr "your-vision-api-key");
         ("openai", "endpoint", PStr "https://your-openai-service.openai.azure.com/");
         ("openai", "api_key", PStr "your-openai-api-key")]
    ∧ length (endpoint_key_fields doc) ≠ 3%nat.
Proof.
  eexists _, _, _. split; [vm_compute; reflexivity|].
  split; [reflexivity|]. split; [reflexivity|]. simpl. lia.
Qed.

(** C3, amended: if the configuration file at the given path does not
    exist, no image is processed during that run and [main] does not
    return normally; when the template can be written, the loader writes
    it to that path -- the four placeholder endpoint/key fields
    [vision.endpoint], [vision.api_key], [openai.endpoint],
    [openai.api_key], next to [openai.api_version] and
    [openai.deployment_name] -- and the process halts with exit status 1;
    when the write fails, the process ends with the I/O error. *)
Theorem missing_config_writes_template_and_halts
    (USE_NEW_VISION_API : bool) (w : world) (args : arguments) (s : state) :
  fs s !! arg_config args = None →
  ∃ r s',
    main USE_NEW_VISION_API w args s = (r, s')
    ∧ (∀ v, r ≠ Ok v)
    ∧ calls s' = calls s
    ∧ (config_io w = IoOk →
         r = Exit 1
         ∧ fs s' = <[arg_config args := Document config_format example_config]> (fs s))
    ∧ (∀ e, config_io w = OpenRaises e ∨ config_io w = DumpRaises e → r = Raise e)
    ∧ map (λ f, (f.1.1, f.1.2)) (endpoint_key_fields example_config)
      = [("vision", "endpoint"); ("vision", "api_key");
         ("openai", "endpoint"); ("openai", "api_key")]
    ∧ keys example_config = ["vision"; "openai"]
    ∧ (keys <$> field "vision" example_config) = Some ["endpoint"; "api_key"]
    ∧ (keys <$> field "openai" example_config)
      = Some ["endpoint"; "api_key"; "api_version"; "deployment_name"].
Proof.
  intros Habsent.
  destruct (main_absent_config USE_NEW_VISION_API w args s Habsent)
    as (r & s' & Hmain & Hr & Hcalls & Hio).
  exists r, s'. split; [exact Hmain|]. split; [exact Hr|]. split; [exact Hcalls|].
  split; [|split; [|by repeat split]].
  - intros Hok. by rewrite Hok in Hio.
  - intros e [He|He]; rewrite He in Hio; by destruct Hio.
Qed.

Lemma missing_config_writes_template_and_halts_witness :
  ∃ s',
    main true world_ok (Args "config.json" (Some "input/cat.jpg")) initial = (Exit 1, s')
    ∧ fs s' = {[ "config.json" := Document config_format example_config ]}
    ∧ calls s' = [].
Proof.
  destruct (missing_config_writes_template_and_halts true world_ok
              (Args "config.json" (Some "input/cat.jpg")) initial eq_refl)
    as (r & s' & Hmain & _ & Hcalls & Hok & _).
  destruct (Hok eq_refl) as [-> Hfs].
  exists s'. split; [exact Hmain|]. split; [|exact Hcalls].
  rewrite Hfs. apply insert_empty.
Defined.

(** ** The specification's example *)

(** [input/cat.jpg], with the answers of the example: the record is
    written to [output/cat_<ts>.json], its [analysis.caption] is the
    service's caption and its [generated_text] is the description. *)
Example cat_scenario :
  ∃ r s' a,
    process_image true world_ok configured "input/cat.jpg" initial = (Ok r, s')
    ∧ fs s' = {[ "output/cat_1704067200.json" := Document save_format r ]}
    ∧ field "analysis" r = Some a
    ∧ field "caption" a = Some (PStr "a cat sitting on a chair")
    ∧ field "generated_text" r = Some (PStr four_part_description).
Proof.
  destruct (process_image_success true world_ok configured "input/cat.jpg" initial
              [] (Unified cat_result) (PStr "gpt-4o")
              eq_refl (conj eq_refl eq_refl) eq_refl eq_refl)
    as (prompt & s' & Hp & Hrun & Hfs).
  vm_compute in Hp. injection Hp as <-.
  eexists _, s', _. split; [exact Hrun|].
  split; [rewrite Hfs; apply insert_empty|]. by repeat split.
Qed.

(** * Further properties of the script *)

(** ** From the service's answer to the prompt *)

Lemma prompt_fields_upstream (u : upstream) :
  prompt_fields (organize u) = Returns (upstream_prompt u).
Proof.
  destruct u as [r|d t o].
  - cbn [organize]. unfold prompt_fields, pluck, organize_unified; simpl.
    rewrite (map_result_entries caption_entry (λ c, PStr (Caption.text c)))
      by reflexivity; simpl.
    rewrite (map_result_entries tag_entry (λ c, PStr (Tag.name c)))
      by reflexivity; simpl.
    rewrite (map_result_entries object_entry (λ c, PStr (DetectedObject.name c)))
      by reflexivity; simpl.
    reflexivity.
  - cbn [organize]. unfold prompt_fields, pluck, legacy_dict; simpl.
    rewrite (map_result_entries caption_entry (λ c, PStr (Caption.text c)))
      by reflexivity; simpl.
    rewrite (map_result_entries tag_entry (λ c, PStr (Tag.name c)))
      by reflexivity; simpl.
    rewrite (map_result_entries legacy_object_entry
               (λ c, PStr (LegacyObject.object_property c))) by reflexivity; simpl.
    reflexivity.
Qed.

(** X1: the values the prompt quotes are the service's, unchanged and in
    the service's order, under both strategies; under the legacy strategy
    the object names are the [object_property] values. *)
Theorem prompt_quotes_upstream (u : upstream) :
  prompt_fields (organize u) = Returns (upstream_prompt u).
Proof. apply prompt_fields_upstream. Qed.

(** X2: no confidence is rescaled or dropped: the values stored under
    [confidence] in the analysis are exactly the confidences the service
    sent, in order, preceded by the caption's (or by [0] when there is no
    caption). *)
Theorem confidences_pass_through (u : upstream) :
  confidence_values (organize u) = upstream_confidences u.
Proof.
  destruct u as [r|d t o]; cbn [organize upstream_confidences].
  - unfold organize_unified.
    cbn [confidence_values flat_map fst snd String.eqb Ascii.eqb Bool.eqb].
    rewrite confidence_values_captions, confidence_values_tags,
      confidence_values_objects, !app_nil_r.
    destruct (ImageAnalysisResult.caption r); reflexivity.
  - rewrite organize_legacy_unified. unfold organize_unified, unified_of_legacy.
    cbn [confidence_values flat_map fst snd String.eqb Ascii.eqb Bool.eqb
         ImageAnalysisResult.caption ImageAnalysisResult.dense_captions
         ImageAnalysisResult.tags ImageAnalysisResult.objects or_empty].
    rewrite confidence_values_captions, confidence_values_tags,
      confidence_values_objects, !app_nil_r, map_map.
    destruct d; reflexivity.
Qed.

(** ** What the generator does not recover from, and what it does *)

(** X3: the deployment name is read outside the [try] of
    [generate_text].  When the [openai] section of the configuration has
    no [deployment_name], [generate_text] raises [KeyError] instead of
    returning a placeholder, although the analysis succeeded;
    [process_image] reports it as the error variant with the message
    ['deployment_name'], and writes nothing. *)
Theorem missing_deployment_name_fails_the_image
    (USE_NEW_VISION_API : bool) (w : world) (self : integrator)
    (image_path : string) (s : state) (image_data : list Byte.byte)
    (u : upstream) (openai : list (string * pyval)) :
  let n := length (calls s) in
  read_image w n image_path = Returns image_data →
  vision_returns USE_NEW_VISION_API w n image_data u →
  getitem (config self) "openai" = Returns (PDict openai) →
  assoc "deployment_name" openai = None →
  (∀ s1, ∃ s2, generate_text w self n (organize u) s1
               = (Raise (Exn KeyError "'deployment_name'"), s2))
  ∧ ∃ s',
      process_image USE_NEW_VISION_API w self image_path s
      = (Ok (error_record (now_isoformat_except w n) image_path "'deployment_name'"), s')
      ∧ fs s' = fs s.
Proof.
  intros n Hread Hu Hopenai Hmissing.
  assert (∀ s1, ∃ s2, generate_text w self n (organize u) s1
                      = (Raise (Exn KeyError "'deployment_name'"), s2)
                      ∧ fs s2 = fs s1) as Hgen.
  { intros s1. unfold generate_text, mbind, M_bind. simpl.
    rewrite prompt_fields_upstream. simpl.
    unfold deployment_name_of. rewrite Hopenai. simpl. rewrite Hmissing. simpl.
    eauto. }
  split.
  - intros s1. destruct (Hgen s1) as (s2 & Hg & _). eauto.
  - destruct (analyze_image_Ok USE_NEW_VISION_API w n image_path (entered image_path s)
                image_data u Hread Hu) as (s1 & Ha & Hf1 & _).
    destruct (Hgen s1) as (s2 & Hg & Hf2).
    rewrite process_image_unfold. cbv zeta. fold n. rewrite Ha, Hg.
    eexists. split; [reflexivity|]. simpl. by rewrite Hf2, Hf1.
Qed.

Lemma missing_deployment_name_fails_the_image_witness :
  ∃ s',
    process_image true world_ok (Integrator config_without_deployment)
      "input/cat.jpg" initial
    = (Ok (error_record "2024-01-01T12:00:00.500000" "input/cat.jpg"
             "'deployment_name'"), s')
    ∧ fs s' = ∅.
Proof.
  exact (proj2 (missing_deployment_name_fails_the_image true world_ok
                  (Integrator config_without_deployment) "input/cat.jpg" initial []
                  (Unified cat_result)
                  [("endpoint", PStr "https://o.example/"); ("api_key", PStr "k2")]
                  eq_refl (conj eq_refl eq_refl) eq_refl eq_refl)).
Defined.

(** X4: a completion that returns with an empty list of choices is
    recovered from like a failed call: indexing the list raises inside
    the [try], and [generate_text] returns the placeholder with the
    [IndexError]'s message, touching no file. *)
Theorem empty_choices_give_placeholder
    (w : world) (self : integrator) (n : nat) (analysis_result : pyval) (s : state)
    (prompt deployment_name : pyval) :
  prompt_fields analysis_result = Returns prompt →
  deployment_name_of self = Returns deployment_name →
  chat_completions_create w n deployment_name prompt = Returns [] →
  ∃ s',
    generate_text w self n analysis_result s
    = (Ok (PStr (placeholder_prefix ++ "list index out of range")), s')
    ∧ fs s' = fs s
    ∧ stdout s' = (stdout s ++
        ["Gerando descrição detalhada com GPT-4o...";
         "Erro ao gerar texto com o OpenAI: list index out of range"])%list.
Proof.
  intros Hp Hd Hchat. unfold generate_text, mbind, M_bind, try_except. simpl.
  rewrite Hp. simpl. rewrite Hd. simpl. rewrite Hchat. simpl.
  eexists. split; [reflexivity|]. split; [reflexivity|]. simpl.
  by rewrite <- app_assoc.
Qed.

Lemma empty_choices_give_placeholder_witness :
  ∃ s',
    generate_text
      (scenario ["cat.jpg"] (Returns cat_result) (Returns []) (17040672002 # 10) IoOk IoOk)
      configured 0 (organize_unified cat_result) initial
    = (Ok (PStr "Não foi possível gerar uma descrição. Erro: list index out of range"), s')
    ∧ fs s' = ∅.
Proof.
  destruct (empty_choices_give_placeholder
              (scenario ["cat.jpg"] (Returns cat_result) (Returns [])
                 (17040672002 # 10) IoOk IoOk)
              configured 0 (organize_unified cat_result) initial
              (upstream_prompt (Unified cat_result)) (PStr "gpt-4o")
              eq_refl eq_refl eq_refl) as (s' & Hrun & Hfs & _).
  exists s'. split; [exact Hrun|exact Hfs].
Defined.

(** X5: a completion whose first choice carries no content is not an
    error: [generate_text] returns [None], and the record that
    [process_image] writes and returns is the success variant with
    [generated_text] null. *)
Theorem missing_content_is_written_as_null
    (USE_NEW_VISION_API : bool) (w : world) (self : integrator)
    (image_path : string) (s : state) (image_data : list Byte.byte)
    (u : upstream) (deployment_name : pyval) (others : list (option string)) :
  let n := length (calls s) in
  read_image w n image_path = Returns image_data →
  vision_returns USE_NEW_VISION_API w n image_data u →
  deployment_name_of self = Returns deployment_name →
  chat_completions_create w n deployment_name (upstream_prompt u)
    = Returns (None :: others) →
  save_io w n = IoOk →
  ∃ r s',
    process_image USE_NEW_VISION_API w self image_path s = (Ok r, s')
    ∧ keys r = success_keys
    ∧ field "generated_text" r = Some PNone
    ∧ fs s' !! output_path_of image_path (time_time w n) = Some (Document save_format r).
Proof.
  intros n Hread Hu Hd Hchat Hio.
  destruct (process_image_success USE_NEW_VISION_API w self image_path s image_data u
              deployment_name Hread Hu Hd Hio) as (prompt & s' & Hp & Hrun & Hfs).
  fold n in Hrun, Hfs. rewrite prompt_fields_upstream in Hp. injection Hp as <-.
  rewrite Hchat in Hrun, Hfs. eexists _, s'. split; [exact Hrun|].
  split; [reflexivity|]. split; [reflexivity|]. rewrite Hfs. apply lookup_insert_eq.
Qed.

Lemma missing_content_is_written_as_null_witness :
  ∃ r s',
    process_image true
      (scenario ["cat.jpg"] (Returns cat_result) (Returns [None]) (17040672002 # 10)
         IoOk IoOk)
      configured "input/cat.jpg" initial = (Ok r, s')
    ∧ field "generated_text" r = Some PNone.
Proof.
  destruct (missing_content_is_written_as_null true
              (scenario ["cat.jpg"] (Returns cat_result) (Returns [None])
                 (17040672002 # 10) IoOk IoOk)
              configured "input/cat.jpg" initial [] (Unified cat_result) (PStr "gpt-4o") []
              eq_refl (conj eq_refl eq_refl) eq_refl eq_refl eq_refl)
    as (r & s' & Hrun & _ & Hnull & _).
  exists r, s'. split; [exact Hrun|exact Hnull].
Defined.

(** ** Which failure is reported *)

(** X6: [analyze_image] catches nothing.  Once the image is read, the
    first vision call that fails -- the single call of the unified
    strategy; describe, then tag, then detect-objects under the legacy
    strategy -- ends the analysis with its own exception, whatever the
    later calls would have done, and [process_image] reports that
    exception's message and writes nothing. *)
Theorem first_failing_call_is_reported
    (USE_NEW_VISION_API : bool) (w : world) (self : integrator)
    (image_path : string) (s : state) (image_data : list Byte.byte) (e : exn) :
  let n := length (calls s) in
  read_image w n image_path = Returns image_data →
  first_vision_failure USE_NEW_VISION_API w n image_data = Some e →
  (∀ s1, ∃ s2, analyze_image USE_NEW_VISION_API w n image_path s1 = (Raise e, s2))
  ∧ ∃ s',
      process_image USE_NEW_VISION_API w self image_path s
      = (Ok (error_record (now_isoformat_except w n) image_path (exn_str e)), s')
      ∧ fs s' = fs s.
Proof.
  intros n Hread Hfirst.
  assert (∀ s1, ∃ s2, analyze_image USE_NEW_VISION_API w n image_path s1 = (Raise e, s2))
    as Hraise.
  { intros s1. unfold analyze_image, mbind, M_bind. simpl. rewrite Hread. simpl.
    unfold first_vision_failure in Hfirst. destruct USE_NEW_VISION_API.
    - destruct (analyze w n image_data); [done|]. injection Hfirst as ->.
      simpl. eauto.
    - destruct (describe_image_in_stream w n image_data);
        [|injection Hfirst as ->; simpl; by eauto].
      destruct (tag_image_in_stream w n image_data);
        [|injection Hfirst as ->; simpl; by eauto].
      destruct (detect_objects_in_stream w n image_data); [done|].
      injection Hfirst as ->. simpl. eauto. }
  split; [exact Hraise|].
  destruct (Hraise (entered image_path s)) as (s1 & Ha).
  exact (process_image_analysis_raises USE_NEW_VISION_API w self image_path s e s1 Ha).
Qed.

Lemma first_failing_call_is_reported_witness :
  ∃ s',
    process_image false world_legacy_down configured "input/cat.jpg" initial
    = (Ok (error_record "2024-01-01T12:00:00.500000" "input/cat.jpg" "describe failed"),
       s')
    ∧ fs s' = ∅.
Proof.
  exact (proj2 (first_failing_call_is_reported false world_legacy_down configured
                  "input/cat.jpg" initial [] (Exn ServiceError "describe failed")
                  eq_refl eq_refl)).
Defined.

(** ** What the script leaves alone *)

Section Frame.

Variable USE_NEW_VISION_API : bool.
Variable w : world.
Variable self : integrator.

(** Whatever happens, [process_image] leaves the files as they were or
    writes the one file at its output path. *)
Lemma process_image_fs image_path s :
  let s' := (process_image USE_NEW_VISION_API w self image_path s).2 in
  fs s' = fs s
  ∨ ∃ f, fs s' = <[output_path_of image_path (time_time w (length (calls s))) := f]> (fs s).
Proof.
  cbv zeta. rewrite process_image_unfold. cbv zeta.
  pose proof (quiet_analyze_image USE_NEW_VISION_API w (length (calls s)) image_path
                (entered image_path s)) as (Hf1 & _ & Hx1).
  destruct (analyze_image _ _ _ _ _) as [[a|e|c] s1]; simpl in Hf1, Hx1;
    [|by left|by destruct (Hx1 c)].
  pose proof (quiet_generate_text w self (length (calls s)) a s1) as (Hf2 & _ & Hx2).
  destruct (generate_text _ _ _ _ _) as [[g|e|c] s2]; simpl in Hf2, Hx2;
    [|left; simpl; congruence|by destruct (Hx2 c)].
  destruct (save_io w (length (calls s))) as [|e|e] eqn:Hio.
  - destruct (save_result_IoOk w (length (calls s))
                (success_record (now_isoformat w (length (calls s))) image_path a g)
                image_path s2 Hio) as (s3 & -> & Hf3 & _).
    right. eexists. simpl. rewrite Hf3, Hf2, Hf1. reflexivity.
  - rewrite (save_result_OpenRaises w _ _ _ _ e Hio). left. simpl. congruence.
  - destruct (save_result_DumpRaises w (length (calls s))
                (success_record (now_isoformat w (length (calls s))) image_path a g)
                image_path s2 e Hio) as (s3 & -> & Hf3 & _).
    right. eexists. simpl. rewrite Hf3, Hf2, Hf1. reflexivity.
Qed.

Lemma output_path_in_output image_path t : in_output (output_path_of image_path t).
Proof. unfold output_path_of. eexists. reflexivity. Qed.

Lemma grows_refl (m : gmap string file) : grows_in_output m m 0.
Proof. repeat split; [done|lia]. Qed.

Lemma grows_insert (m : gmap string file) path f :
  in_output path → grows_in_output m (<[path := f]> m) 1.
Proof.
  intros Hout. repeat split.
  - intros p Hp. apply lookup_insert_ne. by intros <-.
  - rewrite dom_insert_L. set_solver.
  - rewrite map_size_insert. destruct (m !! path); simpl; lia.
Qed.

Lemma grows_trans (m1 m2 m3 : gmap string file) j k :
  grows_in_output m1 m2 j → grows_in_output m2 m3 k → grows_in_output m1 m3 (j + k).
Proof.
  intros (H1 & D1 & S1) (H2 & D2 & S2). repeat split.
  - intros p Hp. by rewrite H2, H1.
  - set_solver.
  - lia.
Qed.

Lemma grows_weaken (m m' : gmap string file) j k :
  (j ≤ k)%nat → grows_in_output m m' j → grows_in_output m m' k.
Proof. intros Hjk (H & D & S). repeat split; [done|done|lia]. Qed.

Lemma process_image_grows image_path s :
  grows_in_output (fs s) (fs (process_image USE_NEW_VISION_API w self image_path s).2) 1.
Proof.
  destruct (process_image_fs image_path s) as [->|[f ->]].
  - apply (grows_weaken _ _ 0); [lia|apply grows_refl].
  - apply grows_insert, output_path_in_output.
Qed.

Lemma process_each_grows input_dir (image_files : list string) s :
  grows_in_output (fs s)
    (fs (process_each USE_NEW_VISION_API w self input_dir image_files s).2)
    (length image_files).
Proof.
  revert s. induction image_files as [|image_file rest IH]; intros s.
  - apply grows_refl.
  - cbn [process_each length]. unfold mbind at 1, M_bind at 1. cbn [print].
    set (s0 := {| fs := fs s;
                  stdout := stdout s ++ [nl ++ "Processando: " ++ image_file];
                  calls := calls s |}).
    pose proof (process_image_grows (PyStr.join input_dir image_file) s0) as Hstep.
    destruct (process_image_returns USE_NEW_VISION_API w self
                (PyStr.join input_dir image_file) s0) as (r & s1 & Hrun & _).
    unfold mbind at 1, M_bind at 1. rewrite Hrun in Hstep |- *.
    change (S (length rest)) with (1 + length rest)%nat.
    exact (grows_trans _ _ _ _ _ Hstep (IH s1)).
Qed.

Lemma process_all_images_grows s files :
  listdir w "input" = Returns files →
  grows_in_output (fs s) (fs (process_all_images USE_NEW_VISION_API w self s).2)
    (length (filter is_image_file files)).
Proof.
  intros Hlist. unfold process_all_images. rewrite Hlist.
  unfold mbind at 1, M_bind at 1. cbn [lift mret M_ret].
  destruct (filter is_image_file files) as [|f0 rest] eqn:Himages.
  - apply grows_refl.
  - unfold mbind at 1, M_bind at 1. cbn [print].
    set (s0 := {| fs := fs s;
                  stdout := stdout s ++
                    ["Encontradas " ++ pretty (length (f0 :: rest))
                     ++ " imagens para processar."];
                  calls := calls s |}).
    pose proof (process_each_grows "input" (f0 :: rest) s0) as Hloop.
    destruct (process_each_calls USE_NEW_VISION_API w self "input" (f0 :: rest) s0)
      as (s1 & Hrun & _).
    unfold mbind at 1, M_bind at 1. rewrite Hrun in Hloop |- *. exact Hloop.
Qed.

End Frame.

(** X7: whatever the services, the clock and the disk do,
    [process_image] removes no file, leaves every path other than its
    output path exactly as it was, and adds at most one file. *)
Theorem process_image_touches_one_path
    (USE_NEW_VISION_API : bool) (w : world) (self : integrator)
    (image_path : string) (s : state) :
  let s' := (process_image USE_NEW_VISION_API w self image_path s).2 in
  (∀ p, p ≠ output_path_of image_path (time_time w (length (calls s))) →
        fs s' !! p = fs s !! p)
  ∧ dom (fs s) ⊆ dom (fs s')
  ∧ (size (fs s') ≤ S (size (fs s)))%nat.
Proof.
  cbv zeta.
  destruct (process_image_fs USE_NEW_VISION_API w self image_path s) as [->|[f ->]].
  - repeat split; [done|lia].
  - repeat split.
    + intros p Hp. by apply lookup_insert_ne.
    + rewrite dom_insert_L. set_solver.
    + rewrite map_size_insert. destruct (fs s !! _); simpl; lia.
Qed.

(** X8: a directory run never removes a file, changes nothing outside
    [output/] (the configuration file and the images stay as they are),
    and leaves at most one new file per selected image. *)
Theorem process_all_images_writes_only_output
    (USE_NEW_VISION_API : bool) (w : world) (self : integrator)
    (s : state) (files : list string) :
  listdir w "input" = Returns files →
  let s' := (process_all_images USE_NEW_VISION_API w self s).2 in
  (∀ p, ¬ in_output p → fs s' !! p = fs s !! p)
  ∧ dom (fs s) ⊆ dom (fs s')
  ∧ (size (fs s') ≤ size (fs s) + length (filter is_image_file files))%nat.
Proof.
  intros Hlist. exact (process_all_images_grows USE_NEW_VISION_API w self s files Hlist).
Qed.

Lemma process_all_images_writes_only_output_witness :
  let s0 := {| fs := {[ "config.json" := Document config_format example_config ]};
               stdout := []; calls := [] |} in
  let s' := (process_all_images true
               (scenario ["cat.jpg"; "notes.txt"; "dog.png"] (Returns cat_result)
                  (Returns [Some four_part_description]) (17040672002 # 10) IoOk IoOk)
               configured s0).2 in
  fs s' !! "config.json" = Some (Document config_format example_config)
  ∧ (size (fs s') ≤ 3)%nat.
Proof.
  cbv zeta.
  destruct (process_all_images_writes_only_output true
              (scenario ["cat.jpg"; "notes.txt"; "dog.png"] (Returns cat_result)
                 (Returns [Some four_part_description]) (17040672002 # 10) IoOk IoOk)
              configured
              {| fs := {[ "config.json" := Document config_format example_config ]};
                 stdout := []; calls := [] |}
              ["cat.jpg"; "notes.txt"; "dog.png"] eq_refl) as (Hframe & _ & Hsize).
  split.
  - rewrite Hframe; [reflexivity|]. intros [name Hname]. discriminate Hname.
  - exact Hsize.
Defined.

(** ** Where the output file lands *)

Section OutputName.

Lemma occurs_append c (s t : string) : occurs c (s ++ t) = occurs c s || occurs c t.
Proof.
  induction s as [|a s IH]; [reflexivity|].
  change (Ascii.eqb a c || occurs c (s ++ t) = Ascii.eqb a c || occurs c s || occurs c t).
  rewrite IH. by rewrite orb_assoc.
Qed.

Lemma occurs_substring c (s : string) n m :
  occurs c s = false → occurs c (substring n m s) = false.
Proof.
  revert n m. induction s as [|a s IH]; intros n m Hs.
  - by destruct n, m.
  - simpl in Hs. apply orb_false_elim in Hs as [Ha Hs].
    destruct n as [|n]; [destruct m as [|m]|]; simpl; [done| |by apply IH].
    rewrite Ha. by apply IH.
Qed.

(** After the last occurrence of [c] there is none. *)
Lemma rfind_from_suffix c (p : string) (i last : Z) :
  last < i →
  let r := PyStr.rfind_from c p i last in
  (r = last ∧ occurs c p = false)
  ∨ (i ≤ r ∧ ∀ m, occurs c (substring (Z.to_nat (r + 1 - i)) m p) = false).
Proof.
  revert i last. induction p as [|a p IH]; intros i last Hlt; cbv zeta.
  - left. by split.
  - cbn [PyStr.rfind_from].
    destruct (IH (i + 1) (if Ascii.eqb a c then i else last)) as [[Hr Hp]|[Hle Hsuf]].
    { destruct (Ascii.eqb a c); lia. }
    + destruct (Ascii.eqb a c) eqn:Ha.
      * right. rewrite Hr. split; [lia|]. intros m.
        replace (Z.to_nat (i + 1 - i)) with 1%nat by lia. simpl.
        by apply occurs_substring.
      * left. split; [exact Hr|]. simpl. by rewrite Ha.
    + right. split; [lia|]. intros m.
      replace (Z.to_nat (PyStr.rfind_from c p (i + 1)
                           (if Ascii.eqb a c then i else last) + 1 - i))
        with (S (Z.to_nat (PyStr.rfind_from c p (i + 1)
                             (if Ascii.eqb a c then i else last) + 1 - (i + 1))))
        by lia.
      simpl. apply Hsuf.
Qed.

Lemma basename_no_sep (p : string) : occurs PyStr.sep (PyStr.basename p) = false.
Proof.
  unfold PyStr.basename, PyStr.slice_from, PyStr.rfind.
  destruct (rfind_from_suffix PyStr.sep p 0 (-1)) as [[Hr Hp]|[Hle Hsuf]]; [lia| |].
  - by apply occurs_substring.
  - cbv zeta in Hsuf. rewrite Z.sub_0_r in Hsuf. apply Hsuf.
Qed.

Lemma splitext_fst_no_sep (q : string) :
  occurs PyStr.sep q = false → occurs PyStr.sep (fst (PyStr.splitext q)) = false.
Proof.
  intros Hq. unfold PyStr.splitext.
  destruct (_ && _); simpl; [|done].
  by apply occurs_substring.
Qed.

Lemma pretty_N_go_no_sep (x : N) (s : string) :
  occurs PyStr.sep s = false → occurs PyStr.sep (pretty_N_go x s) = false.
Proof.
  revert s. induction (N.lt_wf_0 x) as [x _ IH]; intros s Hs.
  assert (x = 0 ∨ 0 < x)%N as [->|Hpos] by lia.
  - by rewrite pretty_N_go_0.
  - rewrite pretty_N_go_step by done. apply IH.
    { by apply N.div_lt. }
    simpl. rewrite Hs. unfold pretty_N_char. by repeat case_match.
Qed.

Lemma pretty_Z_no_sep (z : Z) : occurs PyStr.sep (pretty z) = false.
Proof.
  assert (∀ x : positive, occurs PyStr.sep (pretty x) = false) as Hpos.
  { intros x. unfold pretty, pretty_positive, pretty, pretty_N.
    case_decide; [done|]. by apply pretty_N_go_no_sep. }
  destruct z as [|x|x]; unfold pretty, pretty_Z; [done|apply Hpos|].
  rewrite occurs_append. by rewrite Hpos.
Qed.

Lemma rfind_from_absent c (p : string) (i last : Z) :
  occurs c p = false → PyStr.rfind_from c p i last = last.
Proof.
  revert i last. induction p as [|a p IH]; intros i last Hp; [reflexivity|].
  simpl in Hp. apply orb_false_elim in Hp as [Ha Hp].
  cbn [PyStr.rfind_from]. rewrite Ha. by apply IH.
Qed.

Lemma substring_all (s : string) : substring 0 (String.length s) s = s.
Proof. induction s as [|a s IH]; [reflexivity|]. simpl. by rewrite IH. Qed.

Lemma output_name_no_sep image_path (t : Q) :
  ∃ name,
    output_path_of image_path t = "output/" ++ name
    ∧ occurs PyStr.sep name = false.
Proof.
  unfold output_path_of. eexists. split; [reflexivity|].
  rewrite !occurs_append, pretty_Z_no_sep.
  rewrite splitext_fst_no_sep by apply basename_no_sep. reflexivity.
Qed.

End OutputName.

(** X9: whatever the image path -- in a sub-directory, absolute, with
    dots or without a name -- and whatever the clock says, the output
    path is [output/] followed by a name that holds no [/]: every record
    lands in [output/] itself, never below or outside it, under the name
    [<stem>_<seconds>.json]. *)
Theorem output_file_is_directly_in_output (image_path : string) (now : Q) :
  (∃ name,
     output_path_of image_path now = "output/" ++ name
     ∧ occurs "/" name = false)
  ∧ PyStr.basename (output_path_of image_path now)
    = fst (PyStr.splitext (PyStr.basename image_path)) ++ "_"
      ++ pretty (int_of_float now) ++ ".json".
Proof.
  split; [apply output_name_no_sep|].
  destruct (output_name_no_sep image_path now) as (name & Hname & Hsep).
  rewrite Hname. unfold output_path_of in Hname.
  apply String.app_inj in Hname. rewrite Hname. clear Hname.
  unfold PyStr.basename, PyStr.rfind, PyStr.slice_from.
  change ("output/" ++ name) with
    (String "o" (String "u" (String "t" (String "p" (String "u" (String "t"
       (String "/" name))))))).
  cbn [PyStr.rfind_from Ascii.eqb Bool.eqb PyStr.sep].
  rewrite (rfind_from_absent _ _ _ _ Hsep).
  change (Z.to_nat (0 + 1 + 1 + 1 + 1 + 1 + 1 + 1)) with 7%nat.
  cbn [String.length Nat.sub substring]. rewrite Nat.sub_0_r. apply substring_all.
Qed.

(** ** Loading the configuration *)

Section Loading.

Variable USE_NEW_VISION_API : bool.

Lemma load_config_present (w : world) config_path s fmt cfg :
  fs s !! config_path = Some (Document fmt cfg) →
  _load_config w config_path s = (Ok cfg, s).
Proof.
  intros Hfile. unfold _load_config, try_except_cls, try_except, open_r_json_load.
  by rewrite Hfile.
Qed.

Lemma load_config_unparsable (w : world) config_path s msg :
  fs s !! config_path = Some (Unparsable msg) →
  _load_config w config_path s = (Raise (Exn JSONDecodeError msg), s).
Proof.
  intros Hfile. unfold _load_config, try_except_cls, try_except, open_r_json_load.
  rewrite Hfile. cbn [exn_cls]. by rewrite decide_False.
Qed.

End Loading.

(** X10: the template survives the round trip.  When a first run finds
    no configuration file and can write the template, a second run with
    the same path loads exactly the template; and if the SDK constructors
    accept the placeholder endpoints and keys, [__init__] completes with
    it: an unedited template is not told apart from a real
    configuration. *)
Theorem template_round_trip
    (w1 w2 : world) (config_path : string) (s : state) :
  fs s !! config_path = None →
  config_io w1 = IoOk →
  new_vision_client w2
    (PStr "https://your-vision-service.cognitiveservices.azure.com/")
    (PStr "your-vision-api-key") = Returns tt →
  new_openai_client w2
    (PStr "https://your-openai-service.openai.azure.com/")
    (PStr "your-openai-api-key") (PStr "2023-12-01-preview") = Returns tt →
  makedirs w2 "input" = Returns tt →
  makedirs w2 "output" = Returns tt →
  ∃ s1,
    _load_config w1 config_path s = (Exit 1, s1)
    ∧ _load_config w2 config_path (restart s1) = (Ok example_config, restart s1)
    ∧ __init__ w2 config_path (restart s1) = (Ok (Integrator example_config), restart s1).
Proof.
  intros Habsent Hio Hvision Hopenai Hin Hout.
  destruct (load_config_absent w1 config_path s Habsent) as (r & s1 & Hload & _ & _ & Hw).
  rewrite Hio in Hw. destruct Hw as [-> Hfs].
  assert (fs (restart s1) !! config_path = Some (Document config_format example_config))
    as Hfile.
  { cbn [restart fs]. rewrite Hfs. apply lookup_insert_eq. }
  exists s1. split; [exact Hload|].
  pose proof (load_config_present w2 config_path (restart s1) _ _ Hfile) as Hload2.
  split; [exact Hload2|].
  unfold __init__. rewrite (bind_Ok _ _ _ _ _ Hload2).
  unfold _initialize_vision_client, _initialize_openai_client, _setup_directories,
    mbind, M_bind. simpl.
  rewrite Hvision. simpl. rewrite Hopenai. simpl. rewrite Hin. simpl.
  rewrite Hout. reflexivity.
Qed.

Lemma template_round_trip_witness :
  ∃ s1,
    _load_config world_ok "config.json" initial = (Exit 1, s1)
    ∧ __init__ world_ok "config.json" (restart s1)
      = (Ok (Integrator example_config), restart s1).
Proof.
  destruct (template_round_trip world_ok world_ok "config.json" initial
              eq_refl eq_refl eq_refl eq_refl eq_refl eq_refl)
    as (s1 & Hfirst & _ & Hsecond).
  exists s1. split; [exact Hfirst|exact Hsecond].
Defined.

(** X11: only a missing file makes the loader write the template.  A
    configuration file that exists but does not parse is left as it is:
    the parse error propagates out of [main], nothing is printed, no
    file is written and no image is processed. *)
Theorem malformed_config_is_not_replaced
    (USE_NEW_VISION_API : bool) (w : world) (args : arguments) (s : state)
    (msg : string) :
  fs s !! arg_config args = Some (Unparsable msg) →
  main USE_NEW_VISION_API w args s = (Raise (Exn JSONDecodeError msg), s).
Proof.
  intros Hfile. unfold main, __init__, mbind, M_bind.
  by rewrite (load_config_unparsable w _ _ _ Hfile).
Qed.

Lemma malformed_config_is_not_replaced_witness :
  let s0 := {| fs := {[ "config.json" := Unparsable "Expecting ',' delimiter" ]};
               stdout := []; calls := [] |} in
  main true world_ok (Args "config.json" None) s0
  = (Raise (Exn JSONDecodeError "Expecting ',' delimiter"), s0).
Proof.
  exact (malformed_config_is_not_replaced true world_ok (Args "config.json" None)
           {| fs := {[ "config.json" := Unparsable "Expecting ',' delimiter" ]};
              stdout := []; calls := [] |}
           "Expecting ',' delimiter" eq_refl).
Defined.

(** X12: the API version handed to the OpenAI client is the
    configuration's [api_version] when the [openai] section has that key
    (whatever its value, [null] included) and ["2023-12-01-preview"] when
    it has not. *)
Theorem api_version_default
    (w : world) (self : integrator) (s : state)
    (openai : list (string * pyval)) (endpoint key : pyval) :
  getitem (config self) "openai" = Returns (PDict openai) →
  assoc "endpoint" openai = Some endpoint →
  assoc "api_key" openai = Some key →
  _initialize_openai_client w self s
  = lift (new_openai_client w endpoint key
            (match assoc "api_version" openai with
             | Some version => version
             | None => PStr "2023-12-01-preview"
             end)) s.
Proof.
  intros Hopenai Hendpoint Hkey.
  unfold _initialize_openai_client, mbind, M_bind. simpl.
  rewrite Hopenai. simpl. rewrite Hendpoint, Hkey. simpl.
  by destruct (new_openai_client _ _ _ _).
Qed.

Lemma api_version_default_witness :
  _initialize_openai_client world_ok (Integrator config_without_deployment) initial
  = lift (new_openai_client world_ok (PStr "https://o.example/") (PStr "k2")
            (PStr "2023-12-01-preview")) initial.
Proof.
  exact (api_version_default world_ok (Integrator config_without_deployment) initial
           [("endpoint", PStr "https://o.example/"); ("api_key", PStr "k2")]
           (PStr "https://o.example/") (PStr "k2") eq_refl eq_refl eq_refl).
Defined.

(** X13: the configuration is not validated when it is loaded.  A file
    that parses but lacks [vision.endpoint] (or the whole [vision]
    section) makes [main] end with the [KeyError] of that lookup, before
    any client is built, any directory created or any image processed,
    and with nothing printed. *)
Theorem missing_vision_key_stops_main
    (USE_NEW_VISION_API : bool) (w : world) (args : arguments) (s : state)
    (fmt : dump_format) (cfg : pyval) (e : exn) :
  fs s !! arg_config args = Some (Document fmt cfg) →
  (getitem cfg "vision" ≫= λ v, getitem v "endpoint") = Raises e →
  main USE_NEW_VISION_API w args s = (Raise e, s).
Proof.
  intros Hfile Hkey.
  unfold main, __init__, _initialize_vision_client, mbind, M_bind in *.
  rewrite (load_config_present w _ _ _ _ Hfile). cbn [config lift].
  by rewrite Hkey.
Qed.

Lemma missing_vision_key_stops_main_witness :
  let s0 := {| fs := {[ "config.json" := Document config_format (PDict []) ]};
               stdout := []; calls := [] |} in
  main true world_ok (Args "config.json" None) s0 = (Raise (Exn KeyError "'vision'"), s0).
Proof.
  exact (missing_vision_key_stops_main true world_ok (Args "config.json" None)
           {| fs := {[ "config.json" := Document config_format (PDict []) ]};
              stdout := []; calls := [] |}
           config_format (PDict []) (Exn KeyError "'vision'") eq_refl eq_refl).
Defined.

(** ** The command line *)

(** X14: an [--image] path that does not exist is reported on standard
    output and is not an error: once the integrator is built, [main]
    returns normally with one line printed, no call of [process_image]
    and no file touched. *)
Theorem missing_image_is_reported
    (USE_NEW_VISION_API : bool) (w : world) (config_path image : string)
    (s s1 : state) (self : integrator) :
  __init__ w config_path s = (Ok self, s1) →
  image ≠ "" →
  path_exists w image = false →
  ∃ s',
    main USE_NEW_VISION_API w (Args config_path (Some image)) s = (Ok tt, s')
    ∧ stdout s' = (stdout s1 ++ [("Imagem não encontrada: " ++ image)%string])%list
    ∧ calls s' = calls s1
    ∧ fs s' = fs s1.
Proof.
  intros Hinit Hne Hmissing. unfold main. cbn [arg_config arg_image].
  rewrite (bind_Ok _ _ _ _ _ Hinit).
  destruct image as [|c image']; [done|]. rewrite Hmissing.
  eexists. by repeat split.
Qed.

Lemma missing_image_is_reported_witness :
  ∃ s',
    main true world_no_such_image (Args "config.json" (Some "holiday.jpg"))
      configured_start = (Ok tt, s')
    ∧ stdout s' = ["Imagem não encontrada: holiday.jpg"]
    ∧ calls s' = [].
Proof.
  destruct (missing_image_is_reported true world_no_such_image "config.json"
              "holiday.jpg" configured_start configured_start
              (Integrator example_config) eq_refl) as (s' & Hrun & Hout & Hcalls & _);
    [discriminate|reflexivity|].
  exists s'. split; [exact Hrun|]. split; [exact Hout|exact Hcalls].
Defined.

(** X15: the extension filter belongs to the directory run only.  With
    [--image] naming an existing path, [main] calls [process_image] on
    exactly that path, whatever its extension, and returns normally
    whether or not the processing succeeds. *)
Theorem given_image_is_processed_once
    (USE_NEW_VISION_API : bool) (w : world) (config_path image : string)
    (s s1 : state) (self : integrator) :
  __init__ w config_path s = (Ok self, s1) →
  image ≠ "" →
  path_exists w image = true →
  ∃ s',
    main USE_NEW_VISION_API w (Args config_path (Some image)) s = (Ok tt, s')
    ∧ calls s' = (calls s1 ++ [image])%list.
Proof.
  intros Hinit Hne Hexists. unfold main. cbn [arg_config arg_image].
  rewrite (bind_Ok _ _ _ _ _ Hinit).
  destruct image as [|c image']; [done|]. rewrite Hexists.
  destruct (process_image_returns USE_NEW_VISION_API w self (String c image') s1)
    as (r & s' & Hrun & Hcalls & _).
  rewrite (bind_Ok _ _ _ _ _ Hrun). exists s'. by split.
Qed.

Lemma given_image_is_processed_once_witness :
  ¬ is_image_file "notes.txt"
  ∧ ∃ s',
      main true world_vision_down (Args "config.json" (Some "notes.txt"))
        configured_start = (Ok tt, s')
      ∧ calls s' = ["notes.txt"].
Proof.
  split; [by apply (bool_decide_unpack _)|].
  destruct (given_image_is_processed_once true world_vision_down "config.json"
              "notes.txt" configured_start configured_start
              (Integrator example_config) eq_refl) as (s' & Hrun & Hcalls);
    [discriminate|reflexivity|].
  exists s'. split; [exact Hrun|exact Hcalls].
Defined.

(** ** Images that share a stem *)

(** X16: the output name keeps neither the directory nor the extension
    of the image.  Two images whose base names have the same stem
    ([cat.jpg] and [cat.png], or [a/cat.jpg] and [b/cat.jpg]) that are
    processed one after the other within the same second are written to
    the same path: both calls return their success records, and
    afterwards the file holds only the second. *)
Theorem same_stem_same_second_collide
    (USE_NEW_VISION_API : bool) (w : world) (self : integrator)
    (image_path1 image_path2 : string) (s0 : state)
    (image_data1 image_data2 : list Byte.byte) (u1 u2 : upstream)
    (deployment_name : pyval) :
  let n := length (calls s0) in
  fst (PyStr.splitext (PyStr.basename image_path1))
    = fst (PyStr.splitext (PyStr.basename image_path2)) →
  int_of_float (time_time w n) = int_of_float (time_time w (S n)) →
  read_image w n image_path1 = Returns image_data1 →
  vision_returns USE_NEW_VISION_API w n image_data1 u1 →
  save_io w n = IoOk →
  read_image w (S n) image_path2 = Returns image_data2 →
  vision_returns USE_NEW_VISION_API w (S n) image_data2 u2 →
  save_io w (S n) = IoOk →
  deployment_name_of self = Returns deployment_name →
  ∃ r1 s1 r2 s2,
    process_image USE_NEW_VISION_API w self image_path1 s0 = (Ok r1, s1)
    ∧ process_image USE_NEW_VISION_API w self image_path2 s1 = (Ok r2, s2)
    ∧ field "image_path" r1 = Some (PStr image_path1)
    ∧ field "image_path" r2 = Some (PStr image_path2)
    ∧ fs s2 = <[output_path_of image_path1 (time_time w n)
                 := Document save_format r2]> (fs s0).
Proof.
  intros n Hstem Hsecond Hread1 Hu1 Hio1 Hread2 Hu2 Hio2 Hd.
  destruct (process_image_success USE_NEW_VISION_API w self image_path1 s0
              image_data1 u1 deployment_name Hread1 Hu1 Hd Hio1)
    as (p1 & s1 & _ & Hrun1 & Hfs1).
  destruct (process_image_returns USE_NEW_VISION_API w self image_path1 s0)
    as (r1' & s1' & Hrun1' & Hcalls1 & _).
  fold n in Hrun1, Hfs1. rewrite Hrun1 in Hrun1'. injection Hrun1' as _ <-.
  assert (length (calls s1) = S n) as Hn1.
  { rewrite Hcalls1, length_app. simpl. unfold n. lia. }
  destruct (process_image_success USE_NEW_VISION_API w self image_path2 s1
              image_data2 u2 deployment_name) as (p2 & s2 & _ & Hrun2 & Hfs2);
    try (rewrite Hn1; assumption); [exact Hd|].
  rewrite Hn1 in Hrun2, Hfs2.
  eexists _, s1, _, s2. split; [exact Hrun1|]. split; [exact Hrun2|].
  split; [reflexivity|]. split; [reflexivity|].
  rewrite Hfs2, Hfs1.
  replace (output_path_of image_path2 (time_time w (S n)))
    with (output_path_of image_path1 (time_time w n))
    by (unfold output_path_of; by rewrite Hstem, Hsecond).
  apply insert_insert_eq.
Qed.

Lemma same_stem_same_second_collide_witness :
  ∃ r1 s1 r2 s2,
    process_image true world_ok configured "input/cat.jpg" initial = (Ok r1, s1)
    ∧ process_image true world_ok configured "input/cat.png" s1 = (Ok r2, s2)
    ∧ field "image_path" r2 = Some (PStr "input/cat.png")
    ∧ fs s2 = {[ "output/cat_1704067200.json" := Document save_format r2 ]}.
Proof.
  destruct (same_stem_same_second_collide true world_ok configured
              "input/cat.jpg" "input/cat.png" initial [] [] (Unified cat_result)
              (Unified cat_result) (PStr "gpt-4o")
              eq_refl eq_refl eq_refl (conj eq_refl eq_refl) eq_refl
              eq_refl (conj eq_refl eq_refl) eq_refl eq_refl)
    as (r1 & s1 & r2 & s2 & Hrun1 & Hrun2 & _ & Hpath & Hfs).
  exists r1, s1, r2, s2. split; [exact Hrun1|]. split; [exact Hrun2|].
  split; [exact Hpath|]. rewrite Hfs. apply insert_empty.
Defined.

(** ** Stems and extensions *)

Section Splitext.

Lemma rfind_from_bounds c (p : string) (i last : Z) :
  last < i →
  let r := PyStr.rfind_from c p i last in
  r = last
  ∨ (i ≤ r < i + Z.of_nat (String.length p)
     ∧ String.get (Z.to_nat (r - i)) p = Some c).
Proof.
  revert i last. induction p as [|a p IH]; intros i last Hlt; cbv zeta; [by left|].
  cbn [PyStr.rfind_from String.length].
  destruct (IH (i + 1) (if Ascii.eqb a c then i else last)) as [Hr|[Hr Hget]].
  { destruct (Ascii.eqb a c); lia. }
  - cbv zeta in Hr. rewrite Hr. destruct (Ascii.eqb a c) eqn:Ha; [right|by left].
    split; [lia|]. rewrite Z.sub_diag. simpl. by apply Ascii.eqb_eq in Ha as ->.
  - right. cbv zeta in Hr, Hget. split; [lia|].
    replace (Z.to_nat (PyStr.rfind_from c p (i + 1)
                         (if Ascii.eqb a c then i else last) - i))
      with (S (Z.to_nat (PyStr.rfind_from c p (i + 1)
                           (if Ascii.eqb a c then i else last) - (i + 1)))) by lia.
    exact Hget.
Qed.

Lemma substring_get (p : string) (n m : nat) c :
  String.get n p = Some c →
  substring n (S m) p = String c (substring (S n) m p).
Proof.
  revert n. induction p as [|a p IH]; intros n Hget; [by destruct n|].
  destruct n as [|n].
  - simpl in Hget. injection Hget as ->. cbn [substring]. by destruct p.
  - simpl in Hget. cbn [substring]. rewrite (IH n Hget). reflexivity.
Qed.

Lemma substring_split (p : string) (n : nat) :
  (n ≤ String.length p)%nat →
  substring 0 n p ++ substring n (String.length p - n) p = p.
Proof.
  revert n. induction p as [|a p IH]; intros n Hn.
  - simpl in Hn. by replace n with 0%nat by lia.
  - destruct n as [|n].
    + cbn [substring String.length Nat.sub]. by rewrite substring_all.
    + cbn [substring String.length Nat.sub].
      change (String a (substring 0 n p ++ substring n (String.length p - n) p)
              = String a p).
      rewrite IH; [done|]. simpl in Hn. lia.
Qed.

(** The two parts [os.path.splitext] returns make up the path; the first
    is not empty when the second is not. *)
Lemma splitext_concat (p : string) :
  fst (PyStr.splitext p) ++ snd (PyStr.splitext p) = p
  ∧ (snd (PyStr.splitext p) ≠ "" → fst (PyStr.splitext p) ≠ "").
Proof.
  unfold PyStr.splitext.
  destruct (_ <? _) eqn:Hlt; cbn [andb].
  2: { cbn [fst snd]. split; [apply append_nil_r|done]. }
  destruct (PyStr.skip_leading_dots _ _ _) eqn:Hskip.
  2: { cbn [fst snd]. split; [apply append_nil_r|done]. }
  apply Z.ltb_lt in Hlt. cbn [fst snd].
  assert (-1 ≤ PyStr.rfind PyStr.sep p) as Hsep.
  { unfold PyStr.rfind.
    destruct (rfind_from_bounds PyStr.sep p 0 (-1) ltac:(lia)) as [H|[H _]];
      cbv zeta in H; lia. }
  assert (0 ≤ PyStr.rfind PyStr.extsep p < Z.of_nat (String.length p)) as Hdot.
  { unfold PyStr.rfind in *.
    destruct (rfind_from_bounds PyStr.extsep p 0 (-1) ltac:(lia)) as [H|[H _]];
      cbv zeta in H; lia. }
  unfold PyStr.slice_to, PyStr.slice_from. split.
  - apply substring_split. lia.
  - intros _.
    destruct (Z.to_nat (PyStr.rfind PyStr.extsep p)) as [|k] eqn:Hk.
    + assert (Z.to_nat (PyStr.rfind PyStr.extsep p - (PyStr.rfind PyStr.sep p + 1)) = 0%nat)
        as Hzero by lia.
      rewrite Hzero in Hskip. discriminate Hskip.
    + destruct p as [|a p]; [simpl in Hdot; lia|]. done.
Qed.

(** What [os.path.splitext] takes off is empty, or a dot followed by
    characters that are not dots. *)
Lemma splitext_ext (p : string) :
  snd (PyStr.splitext p) = ""
  ∨ ∃ rest, snd (PyStr.splitext p) = String "." rest ∧ occurs "." rest = false.
Proof.
  unfold PyStr.splitext.
  destruct (_ <? _) eqn:Hlt; cbn [andb]; [|by left].
  destruct (PyStr.skip_leading_dots _ _ _); [|by left].
  right. apply Z.ltb_lt in Hlt. cbn [snd]. unfold PyStr.slice_from, PyStr.rfind in *.
  assert (-1 ≤ PyStr.rfind_from PyStr.sep p 0 (-1)) as Hsep.
  { destruct (rfind_from_bounds PyStr.sep p 0 (-1) ltac:(lia)) as [H|[H _]];
      cbv zeta in H; lia. }
  destruct (rfind_from_bounds PyStr.extsep p 0 (-1) ltac:(lia)) as [H|[Hdot Hget]];
    cbv zeta in *; [lia|].
  destruct (rfind_from_suffix PyStr.extsep p 0 (-1) ltac:(lia)) as [[H _]|[_ Hsuf]];
    cbv zeta in *; [lia|].
  rewrite Z.sub_0_r in Hget, Hsuf.
  set (d := PyStr.rfind_from PyStr.extsep p 0 (-1)) in *.
  replace (String.length p - Z.to_nat d)%nat
    with (S (String.length p - Z.to_nat d - 1)) by lia.
  rewrite (substring_get _ _ _ _ Hget). eexists. split; [reflexivity|].
  replace (S (Z.to_nat d)) with (Z.to_nat (d + 1)) by lia. apply Hsuf.
Qed.

End Splitext.

(** X17: every file the directory run selects has, once lower-cased, a
    non-empty stem followed by one of the five extensions; so a file
    whose whole name is an extension ([.jpg], [.png]) is never selected. *)
Theorem selected_files_end_in_an_extension (f : string) :
  is_image_file f →
  ∃ stem ext,
    PyStr.lower f = stem ++ ext
    ∧ stem ≠ ""
    ∧ ext ∈ [".jpg"; ".jpeg"; ".png"; ".bmp"; ".gif"].
Proof.
  unfold is_image_file, image_extensions. intros Hext.
  destruct (splitext_concat (PyStr.lower f)) as [Hconcat Hstem].
  exists (fst (PyStr.splitext (PyStr.lower f))), (snd (PyStr.splitext (PyStr.lower f))).
  split; [by rewrite Hconcat|]. split; [|exact Hext].
  apply Hstem. intros Hempty. rewrite Hempty in Hext.
  assert ("" ∉ [".jpg"; ".jpeg"; ".png"; ".bmp"; ".gif"]) as Hno
    by by apply (bool_decide_unpack _).
  by destruct Hno.
Qed.

Lemma selected_files_end_in_an_extension_witness :
  ∃ stem ext, PyStr.lower "Holiday.Photo.JPEG" = stem ++ ext ∧ stem ≠ "" ∧ ext = ".jpeg".
Proof.
  assert (is_image_file "Holiday.Photo.JPEG") as Hsel by by apply (bool_decide_unpack _).
  destruct (selected_files_end_in_an_extension "Holiday.Photo.JPEG" Hsel)
    as (stem & ext & Hname & Hstem & _).
  exists "holiday.photo", ".jpeg". by repeat split.
Defined.

(** X18: the name of the output file is built from the image's base
    name with at most its last extension taken off: the base name is the
    stem followed by nothing, or by a dot and characters that are not
    dots.  So [archive.tar.gz] gives the stem [archive.tar], and a name
    without a dot is kept whole. *)
Theorem output_stem_drops_last_extension_only (image_path : string) (now : Q) :
  ∃ stem ext,
    output_path_of image_path now
      = "output/" ++ stem ++ "_" ++ pretty (int_of_float now) ++ ".json"
    ∧ PyStr.basename image_path = stem ++ ext
    ∧ (ext = "" ∨ ∃ rest, ext = String "." rest ∧ occurs "." rest = false).
Proof.
  exists (fst (PyStr.splitext (PyStr.basename image_path))),
         (snd (PyStr.splitext (PyStr.basename image_path))).
  split; [reflexivity|]. split.
  - by destruct (splitext_concat (PyStr.basename image_path)) as [-> _].
  - apply splitext_ext.
Qed.

(** ** What a successful image prints *)

(** X19: when the image is read, the vision calls return, the
    completion returns a first choice with content and the record is
    written, [process_image] prints exactly three lines -- the analysis
    notice, the generation notice and the path it saved to -- and the
    path it prints is the path that holds the record it returns, whose
    [generated_text] is that content. *)
Theorem success_prints_the_saved_path
    (USE_NEW_VISION_API : bool) (w : world) (self : integrator)
    (image_path : string) (s : state) (image_data : list Byte.byte)
    (u : upstream) (deployment_name : pyval) (content : string)
    (others : list (option string)) :
  let n := length (calls s) in
  let output_path := output_path_of image_path (time_time w n) in
  read_image w n image_path = Returns image_data →
  vision_returns USE_NEW_VISION_API w n image_data u →
  deployment_name_of self = Returns deployment_name →
  chat_completions_create w n deployment_name (upstream_prompt u)
    = Returns (Some content :: others) →
  save_io w n = IoOk →
  ∃ r s',
    process_image USE_NEW_VISION_API w self image_path s = (Ok r, s')
    ∧ stdout s' = (stdout s ++
        [("Analisando imagem: " ++ image_path)%string;
         "Gerando descrição detalhada com GPT-4o...";
         ("Resultado salvo em: " ++ output_path)%string])%list
    ∧ fs s' !! output_path = Some (Document save_format r)
    ∧ field "generated_text" r = Some (PStr content).
Proof.
  intros n output_path Hread Hu Hd Hchat Hio.
  assert (analyze_image USE_NEW_VISION_API w n image_path (entered image_path s)
          = (Ok (organize u),
             (print ("Analisando imagem: " ++ image_path) (entered image_path s)).2))
    as Ha.
  { unfold analyze_image, mbind, M_bind. cbn [print]. rewrite Hread. cbn [lift mret M_ret].
    destruct u as [r|d t o]; simpl in Hu.
    - destruct Hu as [-> Hr]. by rewrite Hr.
    - destruct Hu as (-> & Hd' & Ht & Ho). by rewrite Hd', Ht, Ho. }
  rewrite process_image_unfold. cbv zeta. fold n. rewrite Ha.
  unfold generate_text, mbind, M_bind, try_except. cbn [print snd].
  rewrite prompt_fields_upstream. cbn [lift mret M_ret]. rewrite Hd.
  cbn [lift mret M_ret]. rewrite Hchat. cbn [lift mret M_ret].
  unfold _save_result, mbind, M_bind, open_w, json_dump. rewrite Hio.
  cbn [print fst snd set_fs fs stdout calls entered].
  eexists _, _. split; [reflexivity|]. cbn [stdout fs]. split; [|split].
  - by rewrite <- !app_assoc.
  - fold output_path. apply lookup_insert_eq.
  - reflexivity.
Qed.

Lemma success_prints_the_saved_path_witness :
  ∃ r s',
    process_image true world_ok configured "input/cat.jpg" initial = (Ok r, s')
    ∧ stdout s' = ["Analisando imagem: input/cat.jpg";
                   "Gerando descrição detalhada com GPT-4o...";
                   "Resultado salvo em: output/cat_1704067200.json"].
Proof.
  destruct (success_prints_the_saved_path true world_ok configured "input/cat.jpg"
              initial [] (Unified cat_result) (PStr "gpt-4o") four_part_description []
              eq_refl (conj eq_refl eq_refl) eq_refl eq_refl eq_refl)
    as (r & s' & Hrun & Hout & _).
  exists r, s'. split; [exact Hrun|exact Hout].
Defined.

(** ** Names the directory run selects *)

Section PlainNames.

Lemma append_cons a (s t : string) : String a s ++ t = String a (s ++ t).
Proof. reflexivity. Qed.

Lemma length_append (s t : string) :
  String.length (s ++ t) = (String.length s + String.length t)%nat.
Proof.
  induction s as [|a s IH]; [reflexivity|].
  rewrite append_cons. simpl. by rewrite IH.
Qed.

Lemma lower_append (s t : string) :
  PyStr.lower (s ++ t) = PyStr.lower s ++ PyStr.lower t.
Proof.
  induction s as [|a s IH]; [reflexivity|].
  rewrite append_cons. simpl. by rewrite IH.
Qed.

Lemma lower_char_dot a : Ascii.eqb (PyStr.lower_char a) "." = Ascii.eqb a ".".
Proof. destruct a as [[] [] [] [] [] [] [] []]; reflexivity. Qed.

Lemma lower_char_sep a : Ascii.eqb (PyStr.lower_char a) "/" = Ascii.eqb a "/".
Proof. destruct a as [[] [] [] [] [] [] [] []]; reflexivity. Qed.

Lemma occurs_lower_dot (s : string) : occurs "." (PyStr.lower s) = occurs "." s.
Proof.
  induction s as [|a s IH]; [reflexivity|]. simpl. by rewrite lower_char_dot, IH.
Qed.

Lemma occurs_lower_sep (s : string) : occurs "/" (PyStr.lower s) = occurs "/" s.
Proof.
  induction s as [|a s IH]; [reflexivity|]. simpl. by rewrite lower_char_sep, IH.
Qed.

Lemma rfind_from_append c (s t : string) (i last : Z) :
  PyStr.rfind_from c (s ++ t) i last
  = PyStr.rfind_from c t (i + Z.of_nat (String.length s)) (PyStr.rfind_from c s i last).
Proof.
  revert i last. induction s as [|a s IH]; intros i last.
  - simpl. by rewrite Z.add_0_r.
  - rewrite append_cons. cbn [PyStr.rfind_from String.length]. rewrite IH.
    f_equal. lia.
Qed.

Lemma substring_append_l (s t : string) : substring 0 (String.length s) (s ++ t) = s.
Proof.
  induction s as [|a s IH]; [by destruct t|].
  rewrite append_cons. simpl. by rewrite IH.
Qed.

Lemma substring_append_r (s t : string) m :
  substring (String.length s) m (s ++ t) = substring 0 m t.
Proof.
  induction s as [|a s IH]; [reflexivity|].
  rewrite append_cons. simpl. exact IH.
Qed.

(** A name made of a stem without dots and separators, and of a dot
    followed by characters without dots and separators, is split at that
    dot. *)
Lemma splitext_plain (stem rest : string) :
  stem ≠ "" →
  occurs "." stem = false → occurs "/" stem = false →
  occurs "." rest = false → occurs "/" rest = false →
  PyStr.splitext (stem ++ String "." rest) = (stem, String "." rest).
Proof.
  intros Hne Hdot Hsep Hrdot Hrsep. unfold PyStr.splitext, PyStr.rfind.
  rewrite !rfind_from_append.
  rewrite (rfind_from_absent PyStr.sep stem) by exact Hsep.
  rewrite (rfind_from_absent PyStr.extsep stem) by exact Hdot.
  cbn [PyStr.rfind_from PyStr.sep PyStr.extsep Ascii.eqb Bool.eqb].
  rewrite (rfind_from_absent "/" rest) by exact Hrsep.
  rewrite (rfind_from_absent "." rest) by exact Hrdot.
  destruct stem as [|a stem]; [done|].
  simpl in Hdot. apply orb_false_elim in Hdot as [Ha _].
  replace (-1 <? 0 + Z.of_nat (String.length (String a stem))) with true
    by (symmetry; apply Z.ltb_lt; lia).
  replace (Z.to_nat (0 + Z.of_nat (String.length (String a stem)) - (-1 + 1)))
    with (S (String.length stem)) by (simpl; lia).
  cbn [PyStr.skip_leading_dots andb]. unfold PyStr.not_dot_at.
  rewrite append_cons. cbn [String.get].
  change (Z.to_nat (-1 + 1)) with 0%nat. cbv beta iota.
  unfold PyStr.extsep. rewrite Ha. cbn [negb]. unfold PyStr.slice_to, PyStr.slice_from.
  rewrite <- append_cons.
  replace (Z.to_nat (0 + Z.of_nat (String.length (String a stem))))
    with (String.length (String a stem)) by lia.
  rewrite substring_append_l, substring_append_r, length_append.
  replace (String.length (String a stem) + String.length (String "." rest)
           - String.length (String a stem))%nat
    with (String.length (String "." rest)) by lia.
  by rewrite substring_all.
Qed.

End PlainNames.

(** X20: a name is selected whenever it is a non-empty stem without dots
    and without [/] followed by one of the five extensions written in
    any mix of upper and lower case. *)
Theorem plain_image_names_are_selected (stem ext : string) :
  stem ≠ "" →
  occurs "." stem = false →
  occurs "/" stem = false →
  PyStr.lower ext ∈ [".jpg"; ".jpeg"; ".png"; ".bmp"; ".gif"] →
  is_image_file (stem ++ ext).
Proof.
  intros Hne Hdot Hsep Hext. unfold is_image_file, image_extensions.
  rewrite lower_append.
  assert (PyStr.lower stem ≠ "") as Hne' by by destruct stem.
  rewrite <- occurs_lower_dot in Hdot. rewrite <- occurs_lower_sep in Hsep.
  assert (∃ rest, PyStr.lower ext = String "." rest
                  ∧ occurs "." rest = false ∧ occurs "/" rest = false)
    as (rest & Hrest & Hrdot & Hrsep).
  { repeat (apply elem_of_cons in Hext as [->|Hext]; [by eexists|]).
    by apply elem_of_nil in Hext. }
  rewrite Hrest, (splitext_plain _ _ Hne' Hdot Hsep Hrdot Hrsep). cbn [snd].
  by rewrite <- Hrest.
Qed.

Lemma plain_image_names_are_selected_witness : is_image_file ("Urlaub" ++ ".JpEg").
Proof.
  apply plain_image_names_are_selected; [discriminate|reflexivity|reflexivity|].
  by apply (bool_decide_unpack _).
Defined.
